(** * Verification of apache_beam/io/gcp/pubsub.py

    A shallow embedding of the Cloud Pub/Sub connector of the Beam Python
    SDK: the [PubsubMessage] value object and its protobuf encoding, the
    resource-name parsers [parse_topic] / [parse_subscription] (through a
    small model of Python's [re.match] backtracking semantics), the
    [_PubSubSource] / [ReadFromPubSub] / [WriteToPubSub] configuration
    objects and [MultipleReadFromPubSub]. *)

From Stdlib Require Import String Ascii Strings.Byte.
From stdpp Require Import base gmap strings list.

Open Scope string_scope.
Open Scope list_scope.

(** ** Exceptions and the error monad *)

(** The exceptions raised by the module, one constructor per raise site
    (Python raises them all as [ValueError] or [TypeError]; the message
    tells them apart). *)
Inductive error :=
| MessageUnset                                  (* PubsubMessage.__init__ *)
| InvalidFormat (what : string) (got : string)  (* parse_topic / parse_subscription *)
| InvalidProjectId (project : string)
| MissingAddress                                (* _PubSubSource.__init__ *)
| ConflictingAddress
| MalformedPayload                              (* ParseFromString: DecodeError *)
| ProtoTypeError                                (* protobuf setter given None *)
| NotIterable                                   (* iteritems(None) *)
| TypeMismatch (msg : string)                   (* WriteToPubSub.to_proto_str *)
| ParameterCountMismatch (param : string) (got expected : nat)
| InvalidSource (src : string)                  (* MultipleReadFromPubSub.__init__ *)
| AmbiguousConfiguration (key : string)
| UnexpectedKeyword                             (* ReadFromPubSub given extra kwargs *)
| DuplicateLabel (label : string)               (* Pipeline.apply *)
| NoPipeline                                    (* PTransform.__ror__: no input, no pipeline *)
| IndexError.

Inductive result (A : Type) :=
| Ok (a : A)
| Err (e : error).
Arguments Ok {A} a.
Arguments Err {A} e.

Definition bind {A B} (m : result A) (k : A -> result B) : result B :=
  match m with Ok a => k a | Err e => Err e end.

Notation "x <-- m ;; k" := (bind m (fun x => k))
  (at level 100, m at next level, right associativity).

Fixpoint mapM {A B} (f : A -> result B) (l : list A) : result (list B) :=
  match l with
  | [] => Ok []
  | x :: l' => y <-- f x ;; ys <-- mapM f l' ;; Ok (y :: ys)
  end.

(** ** Python's [re.match] on the fragment used by the module *)

Module Re.

(** A character-class item: [c] or [lo-hi]. *)
Inductive class_item :=
| CChar (c : ascii)
| CRange (lo hi : ascii).

(** Single-character atoms: [.] (anything but a newline) and [[...]] /
    [[^...]]. *)
Inductive atom :=
| AAny
| ASet (negated : bool) (items : list class_item).

(** Regular expressions: literal text, an atom, a greedy repetition
    [atom{lo,hi}] ([+] is [{1,}]), concatenation and a capturing group. *)
Inductive regex :=
| RLit (s : string)
| RAtom (a : atom)
| RRep (a : atom) (lo : nat) (hi : option nat)
| RCat (r1 r2 : regex)
| RGroup (r : regex).

Definition item_ok (i : class_item) (c : ascii) : bool :=
  match i with
  | CChar d => Ascii.eqb c d
  | CRange lo hi =>
      Nat.leb (nat_of_ascii lo) (nat_of_ascii c) && Nat.leb (nat_of_ascii c) (nat_of_ascii hi)
  end.

Definition atom_ok (a : atom) (c : ascii) : bool :=
  match a with
  | AAny => negb (Ascii.eqb c "010"%char)
  | ASet neg items => xorb neg (existsb (fun i => item_ok i c) items)
  end.

(** [strip t s]: [Some rest] when [s = t ++ rest]. *)
Fixpoint strip (t s : string) : option string :=
  match t, s with
  | EmptyString, _ => Some s
  | String a t', String b s' => if Ascii.eqb a b then strip t' s' else None
  | String _ _, EmptyString => None
  end.

(** Length of the longest run of [a]-characters at the front of [s]. *)
Fixpoint run_length (a : atom) (s : string) : nat :=
  match s with
  | EmptyString => 0
  | String c s' => if atom_ok a c then S (run_length a s') else 0
  end.

Definition cap (hi : option nat) (n : nat) : nat :=
  match hi with Some h => Nat.min h n | None => n end.

Definition captures := list string.
Definition cont := string -> captures -> option captures.

(** Greedy repetition: try [n], [n-1], ..., [lo] characters, in that
    order, as Python's backtracking matcher does. *)
Fixpoint try_counts (lo n : nat) (s : string) (caps : captures) (k : cont)
  : option captures :=
  if Nat.ltb n lo then None
  else match k (substring n (String.length s - n) s) caps with
       | Some r => Some r
       | None => match n with 0 => None | S n' => try_counts lo n' s caps k end
       end.

(** The backtracking matcher in continuation-passing style: the first
    successful continuation wins, which is Python's leftmost-priority
    semantics. Groups are recorded in the order they close, which for the
    non-nested groups used here is their number. *)
Fixpoint run (r : regex) (s : string) (caps : captures) (k : cont)
  : option captures :=
  match r with
  | RLit t => match strip t s with Some s' => k s' caps | None => None end
  | RAtom a =>
      match s with
      | String c s' => if atom_ok a c then k s' caps else None
      | EmptyString => None
      end
  | RRep a lo hi => try_counts lo (cap hi (run_length a s)) s caps k
  | RCat r1 r2 => run r1 s caps (fun s' c' => run r2 s' c' k)
  | RGroup r1 =>
      run r1 s caps (fun s' c' =>
        k s' (c' ++ [substring 0 (String.length s - String.length s') s]))
  end.

(** [re.match(pattern, s)]: anchored at the start only. The result is
    the list of groups 1, 2, ... *)
Definition match_ (r : regex) (s : string) : option captures :=
  run r s [] (fun _ caps => Some caps).

(** [re.fullmatch(pattern, s)], i.e. [^pattern$]; used only to state what
    the spec's grammar says. *)
Definition fullmatch (r : regex) (s : string) : option captures :=
  run r s [] (fun rest caps => match rest with EmptyString => Some caps | _ => None end).

End Re.

Import Re.

(** ** Resource names *)

Definition lower := CRange "a" "z".
Definition digit := CRange "0" "9".

(** [PROJECT_ID_REGEXP = '[a-z][-a-z0-9:.]{4,61}[a-z0-9]'] *)
Definition PROJECT_ID_REGEXP : regex :=
  RCat (RAtom (ASet false [lower]))
    (RCat (RRep (ASet false [CChar "-"; lower; digit; CChar ":"; CChar "."]) 4 (Some 61))
          (RAtom (ASet false [lower; digit]))).

(** [SUBSCRIPTION_REGEXP = 'projects/([^/]+)/subscriptions/(.+)'] *)
Definition SUBSCRIPTION_REGEXP : regex :=
  RCat (RLit "projects/")
    (RCat (RGroup (RRep (ASet true [CChar "/"]) 1 None))
      (RCat (RLit "/subscriptions/") (RGroup (RRep AAny 1 None)))).

(** [TOPIC_REGEXP = 'projects/([^/]+)/topics/(.+)'] *)
Definition TOPIC_REGEXP : regex :=
  RCat (RLit "projects/")
    (RCat (RGroup (RRep (ASet true [CChar "/"]) 1 None))
      (RCat (RLit "/topics/") (RGroup (RRep AAny 1 None)))).

Definition matches (r : regex) (s : string) : bool :=
  match match_ r s with Some _ => true | None => false end.

Definition parse_topic (full_topic : string) : result (string * string) :=
  match match_ TOPIC_REGEXP full_topic with
  | Some [project; topic_name] =>
      if matches PROJECT_ID_REGEXP project then Ok (project, topic_name)
      else Err (InvalidProjectId project)
  | _ => Err (InvalidFormat "topic" full_topic)
  end.

Definition parse_subscription (full_subscription : string) : result (string * string) :=
  match match_ SUBSCRIPTION_REGEXP full_subscription with
  | Some [project; subscription_name] =>
      if matches PROJECT_ID_REGEXP project then Ok (project, subscription_name)
      else Err (InvalidProjectId project)
  | _ => Err (InvalidFormat "subscription" full_subscription)
  end.

Example parse_topic_ex :
  parse_topic "projects/my-project-1/topics/my-topic" = Ok ("my-project-1", "my-topic").
Proof. vm_compute. reflexivity. Qed.

Example parse_topic_short :
  parse_topic "projects/ab/topics/t" = Err (InvalidProjectId "ab").
Proof. vm_compute. reflexivity. Qed.

(** ** PubsubMessage *)

Definition bytes := list byte.

(** [PubsubMessage(data, attributes)]: both fields may be [None]. A
    Python [dict] of [str] to [str] is a [gmap string string]. *)
Record PubsubMessage := {
  data : option bytes;
  attributes : option (gmap string string)
}.

(** Python truthiness of the [attributes] argument: [None] and [{}] are
    false. *)
Definition attributes_truthy (a : option (gmap string string)) : bool :=
  match a with
  | Some m => negb (bool_decide (m = ∅))
  | None => false
  end.

Definition is_None {A} (o : option A) : bool :=
  match o with None => true | Some _ => false end.

(** [PubsubMessage.__init__]:
    [if data is None and not attributes: raise ValueError(...)]. *)
Definition new_PubsubMessage (data : option bytes)
    (attributes : option (gmap string string)) : result PubsubMessage :=
  if is_None data && negb (attributes_truthy attributes) then Err MessageUnset
  else Ok {| data := data; attributes := attributes |}.

(** [__eq__] compares [data] and [attributes]; for two [PubsubMessage]
    values this is equality of the record (a [gmap] is canonical, so [=]
    on it is dict equality). *)

(** ** The protobuf wire format of [google.pubsub.v1.PubsubMessage]

    [message PubsubMessage { bytes data = 1; map<string, string>
    attributes = 2; string message_id = 3; Timestamp publish_time = 4;
    ... }]. The map is a repeated field 2 of entries [{ string key = 1;
    string value = 2; }]. Strings are stored as their byte strings. *)

Definition byte_of_nat (n : nat) : byte :=
  match Byte.of_nat n with Some b => b | None => x00 end.

(** Base-128 varint, least significant group first. *)
Fixpoint encode_varint_aux (fuel n : nat) : bytes :=
  match fuel with
  | 0 => []
  | S f =>
      if Nat.ltb n 128 then [byte_of_nat n]
      else byte_of_nat (128 + n mod 128) :: encode_varint_aux f (n / 128)
  end.

Definition encode_varint (n : nat) : bytes := encode_varint_aux (S n) n.

Fixpoint decode_varint (bs : bytes) : option (nat * bytes) :=
  match bs with
  | [] => None
  | b :: rest =>
      let v := Byte.to_nat b in
      if Nat.ltb v 128 then Some (v, rest)
      else match decode_varint rest with
           | Some (n, rest') => Some (v - 128 + 128 * n, rest')
           | None => None
           end
  end.

(** A length-delimited field (wire type 2). *)
Definition encode_ld (field : nat) (payload : bytes) : bytes :=
  encode_varint (field * 8 + 2) ++ encode_varint (List.length payload) ++ payload.

Definition take (n : nat) (bs : bytes) : option (bytes * bytes) :=
  if Nat.leb n (List.length bs) then Some (firstn n bs, skipn n bs) else None.

Inductive wire_value :=
| WVarint (n : nat)
| WFixed64 (b : bytes)
| WLen (b : bytes)
| WFixed32 (b : bytes).

(** One [(field number, value)] pair off the front of the input. *)
Definition read_field (bs : bytes) : option (nat * wire_value * bytes) :=
  match decode_varint bs with
  | None => None
  | Some (tag, rest) =>
      let fnum := tag / 8 in
      if Nat.eqb fnum 0 then None else
      match tag mod 8 with
      | 0 => match decode_varint rest with
             | Some (n, r) => Some (fnum, WVarint n, r) | None => None end
      | 1 => match take 8 rest with
             | Some (b, r) => Some (fnum, WFixed64 b, r) | None => None end
      | 2 => match decode_varint rest with
             | Some (n, r) =>
                 match take n r with
                 | Some (b, r') => Some (fnum, WLen b, r') | None => None end
             | None => None
             end
      | 5 => match take 4 rest with
             | Some (b, r) => Some (fnum, WFixed32 b, r) | None => None end
      | _ => None
      end
  end.

(** Every field consumes at least one byte, so the input length is enough
    fuel. *)
Fixpoint read_fields (fuel : nat) (bs : bytes) : option (list (nat * wire_value)) :=
  match bs with
  | [] => Some []
  | _ :: _ =>
      match fuel with
      | 0 => None
      | S f =>
          match read_field bs with
          | Some (fnum, v, r) =>
              match read_fields f r with
              | Some fs => Some ((fnum, v) :: fs)
              | None => None
              end
          | None => None
          end
      end
  end.

Definition parse_wire (bs : bytes) : option (list (nat * wire_value)) :=
  read_fields (List.length bs) bs.

(** The protobuf message object [pubsub_pb2.PubsubMessage()] as far as the
    module reads or writes it. *)
Record PubsubMessage_pb := {
  pb_data : bytes;
  pb_attributes : gmap string string
}.

Definition empty_pb : PubsubMessage_pb := {| pb_data := []; pb_attributes := ∅ |}.

(** A sequence of length-delimited fields (used in the proofs). *)
Definition enc_fields (fs : list (nat * bytes)) : bytes :=
  List.concat (map (fun fp => encode_ld fp.1 fp.2) fs).

Definition encode_entry (k v : string) : bytes :=
  encode_ld 1 (list_byte_of_string k) ++ encode_ld 2 (list_byte_of_string v).

(** [SerializeToString]: proto3 omits an empty [data]; map entries are
    written in the iteration order of the [gmap], where protobuf uses its
    own map order: the bytes may differ in the order of the entries, not
    in what they decode to. *)
Definition SerializeToString (m : PubsubMessage_pb) : bytes :=
  (match pb_data m with [] => [] | d => encode_ld 1 d end) ++
  List.concat (map (fun kv => encode_ld 2 (encode_entry kv.1 kv.2))
                   (map_to_list (pb_attributes m))).

(** Fields of a map entry: the last occurrence wins, unknown fields are
    skipped, a missing key or value is [""]. *)
Definition apply_entry_field (kv : string * string) (f : nat * wire_value)
  : string * string :=
  match f with
  | (1, WLen b) => (string_of_list_byte b, kv.2)
  | (2, WLen b) => (kv.1, string_of_list_byte b)
  | _ => kv
  end.

Definition parse_entry (bs : bytes) : option (string * string) :=
  match parse_wire bs with
  | Some fs => Some (foldl apply_entry_field ("", "") fs)
  | None => None
  end.

Definition apply_msg_field (m : option PubsubMessage_pb) (f : nat * wire_value)
  : option PubsubMessage_pb :=
  match m with
  | None => None
  | Some m =>
      match f with
      | (1, WLen b) => Some {| pb_data := b; pb_attributes := pb_attributes m |}
      | (2, WLen b) =>
          match parse_entry b with
          | Some (k, v) =>
              Some {| pb_data := pb_data m; pb_attributes := <[k:=v]> (pb_attributes m) |}
          | None => None
          end
      | _ => Some m
      end
  end.

(** [msg.ParseFromString(proto_msg)] on a fresh message; [None] is the
    [DecodeError]. This decoder covers the fields the module reads and the
    bytes [SerializeToString] writes. It does not model protobuf's
    skipping of unknown groups (wire types 3 and 4), its validation of
    fields 3 to 5, its bounds on varints and field numbers, or its UTF-8
    check of map keys and values: on such inputs it may accept or refuse
    where protobuf does the opposite. The properties proved below decode
    only what [SerializeToString] wrote, or hold of any decoded message. *)
Definition ParseFromString (bs : bytes) : option PubsubMessage_pb :=
  match parse_wire bs with
  | Some fs => foldl apply_msg_field (Some empty_pb) fs
  | None => None
  end.

(** [msg.data = self.data]: the protobuf setter rejects [None] with a
    [TypeError]. *)
Definition set_data (d : option bytes) : result bytes :=
  match d with Some b => Ok b | None => Err ProtoTypeError end.

(** [for key, value in iteritems(self.attributes): msg.attributes[key] = value] *)
Definition copy_attributes (attrs : option (gmap string string))
  : result (gmap string string) :=
  match attrs with
  | Some a => Ok (foldl (fun acc kv => <[kv.1:=kv.2]> acc) ∅ (map_to_list a))
  | None => Err NotIterable
  end.

(** [PubsubMessage._to_proto_str] *)
Definition _to_proto_str (self : PubsubMessage) : result bytes :=
  d <-- set_data (data self) ;;
  a <-- copy_attributes (attributes self) ;;
  Ok (SerializeToString {| pb_data := d; pb_attributes := a |}).

(** [PubsubMessage._from_proto_str]: parse, copy the map into a dict and
    call the constructor. *)
Definition _from_proto_str (proto_msg : bytes) : result PubsubMessage :=
  match ParseFromString proto_msg with
  | Some msg =>
      let attrs := foldl (fun acc kv => <[kv.1:=kv.2]> acc) ∅
                         (map_to_list (pb_attributes msg)) in
      new_PubsubMessage (Some (pb_data msg)) (Some attrs)
  | None => Err MalformedPayload
  end.

Example roundtrip_ex :
  let m := {| data := Some [x61; x62]; attributes := Some (<["k":="v"]> ∅) |} in
  bind (_to_proto_str m) _from_proto_str = Ok m.
Proof. vm_compute. reflexivity. Qed.

(** ** [_PubSubSource] and [ReadFromPubSub] *)

(** Python truthiness of an optional string: [None] and [""] are false. *)
Definition truthy (o : option string) : bool :=
  match o with Some s => negb (String.eqb s "") | None => false end.

Module Source.

(** The attributes of a [_PubSubSource] object; [project] stays [None]
    (unset) unless a parser ran. *)
Record t := {
  full_topic : option string;
  full_subscription : option string;
  topic_name : option string;
  subscription_name : option string;
  project : option string;
  id_label : option string;
  with_attributes : bool;
  timestamp_attribute : option string
}.

(** [_PubSubSource.__init__] *)
Definition new (topic subscription id_label : option string) (with_attributes : bool)
    (timestamp_attribute : option string) : result t :=
  if negb (truthy topic || truthy subscription) then Err MissingAddress
  else if truthy topic && truthy subscription then Err ConflictingAddress
  else
    let self0 := {| full_topic := topic; full_subscription := subscription;
                    topic_name := None; subscription_name := None; project := None;
                    id_label := id_label; with_attributes := with_attributes;
                    timestamp_attribute := timestamp_attribute |} in
    self1 <-- (match topic with
               | Some tp =>
                   if truthy topic then
                     pn <-- parse_topic tp ;;
                     Ok {| full_topic := full_topic self0;
                           full_subscription := full_subscription self0;
                           topic_name := Some pn.2;
                           subscription_name := subscription_name self0;
                           project := Some pn.1;
                           id_label := id_label; with_attributes := with_attributes;
                           timestamp_attribute := timestamp_attribute |}
                   else Ok self0
               | None => Ok self0
               end) ;;
    match subscription with
    | Some sb =>
        if truthy subscription then
          pn <-- parse_subscription sb ;;
          Ok {| full_topic := full_topic self1;
                full_subscription := full_subscription self1;
                topic_name := topic_name self1;
                subscription_name := Some pn.2;
                project := Some pn.1;
                id_label := id_label; with_attributes := with_attributes;
                timestamp_attribute := timestamp_attribute |}
        else Ok self1
    | None => Ok self1
    end.

End Source.

(** [beam_runner_api_pb2.PubSubReadPayload]: proto3 strings, so an unset
    field reads as [""]. *)
Record PubSubReadPayload := {
  pl_topic : string;
  pl_subscription : string;
  pl_timestamp_attribute : string;
  pl_id_attribute : string;
  pl_with_attributes : bool;
  pl_serialized_attribute_fn : string
}.

(** A keyword argument [None] given to a protobuf constructor leaves the
    field unset. *)
Definition pb_string (o : option string) : string :=
  match o with Some s => s | None => "" end.

Module Read.

(** A [ReadFromPubSub] object. *)
Record t := {
  with_attributes : bool;
  _source : Source.t
}.

(** [ReadFromPubSub.__init__] *)
Definition new (topic subscription id_label : option string) (with_attributes : bool)
    (timestamp_attribute : option string) : result t :=
  src <-- Source.new topic subscription id_label with_attributes timestamp_attribute ;;
  Ok {| with_attributes := with_attributes; _source := src |}.

(** [ReadFromPubSub._pubsub_read_payload] *)
Definition _pubsub_read_payload (self : t) : PubSubReadPayload :=
  {| pl_topic := pb_string (Source.full_topic (_source self));
     pl_subscription := pb_string (Source.full_subscription (_source self));
     pl_timestamp_attribute := pb_string (Source.timestamp_attribute (_source self));
     pl_id_attribute := pb_string (Source.id_label (_source self));
     pl_with_attributes := with_attributes self;
     pl_serialized_attribute_fn := "" |}.

(** [ReadFromPubSub.from_runner_api_parameter] *)
Definition from_runner_api_parameter (p : PubSubReadPayload) : result t :=
  new (Some (pl_topic p)) (Some (pl_subscription p)) (Some (pl_id_attribute p))
      (pl_with_attributes p) (Some (pl_timestamp_attribute p)).

End Read.

(** ** [WriteToPubSub.to_proto_str] and [WriteToPubSub.expand] *)

(** The Python values that can reach the [Map]: the input PCollection is
    not typed. *)
Inductive pyval :=
| PyBytes (b : bytes)
| PyStr (s : string)
| PyInt (z : Z)
| PyNone
| PyMsg (m : PubsubMessage).

(** [str(type(element))] *)
Definition py_type (v : pyval) : string :=
  match v with
  | PyBytes _ => "<class 'bytes'>"
  | PyStr _ => "<class 'str'>"
  | PyInt _ => "<class 'int'>"
  | PyNone => "<class 'NoneType'>"
  | PyMsg _ => "<class 'apache_beam.io.gcp.pubsub.PubsubMessage'>"
  end.

Module Write.

Section WithRepr.

(** Python's builtin [repr], used by the [%r] conversion. *)
Variable py_repr : pyval -> string.

(** [WriteToPubSub.to_proto_str] *)
Definition to_proto_str (element : pyval) : result bytes :=
  match element with
  | PyMsg m => _to_proto_str m
  | _ => Err (TypeMismatch
                ("Unexpected element. Type: " ++ py_type element ++
                 " (expected: PubsubMessage), value: " ++ py_repr element)%string)
  end.

(** [WriteToPubSub.expand]: the elements handed to [Write(self._sink)].
    With attributes every element goes through [Map(self.to_proto_str)];
    a failing element fails the bundle. *)
Definition expand (with_attributes : bool) (pcoll : list pyval) : result (list pyval) :=
  if with_attributes then
    bs <-- mapM to_proto_str pcoll ;; Ok (map PyBytes bs)
  else Ok pcoll.

End WithRepr.

End Write.

(** ** [MultipleReadFromPubSub] *)

(** [str.split('/')] *)
Fixpoint split_on (c : ascii) (s : string) : list string :=
  match s with
  | EmptyString => [""]
  | String d s' =>
      let parts := split_on c s' in
      if Ascii.eqb c d then "" :: parts
      else match parts with
           | p :: ps => String d p :: ps
           | [] => [String d ""]
           end
  end.

Example split_on_ex :
  split_on "/" "projects/p/topics/a" = ["projects"; "p"; "topics"; "a"].
Proof. reflexivity. Qed.

Module Multi.

(** The [id_label] / [timestamp_attribute] argument: a [str], [None], or
    a list. *)
Inductive param :=
| PNone
| PStr (s : string)
| PList (l : list (option string)).

Record t := {
  source_list : list string;
  with_context : bool;
  with_attributes : bool;
  _kwargs : list (string * string);
  _total_sources : nat;
  id_label : list (option string);
  timestamp_attribute : list (option string)
}.

(** [if isinstance(p, str) or p is None: [p] * n else: <length check>] *)
Definition broadcast (name : string) (p : param) (n : nat) : result (list (option string)) :=
  match p with
  | PNone => Ok (replicate n None)
  | PStr s => Ok (replicate n (Some s))
  | PList l =>
      if Nat.eqb (List.length l) n then Ok l
      else Err (ParameterCountMismatch name (List.length l) n)
  end.

(** The [for source in self.source_list] validation loop. *)
Fixpoint check_sources (srcs : list string) : result unit :=
  match srcs with
  | [] => Ok tt
  | source :: rest =>
      if matches TOPIC_REGEXP source || matches SUBSCRIPTION_REGEXP source
      then check_sources rest
      else Err (InvalidSource source)
  end.

Definition has_key (k : string) (kw : list (string * string)) : bool :=
  existsb (fun kv => String.eqb kv.1 k) kw.

(** [MultipleReadFromPubSub.__init__] *)
Definition new (source_list : list string) (with_context : bool) (id_label : param)
    (with_attributes : bool) (timestamp_attribute : param)
    (kwargs : list (string * string)) : result t :=
  let n := List.length source_list in
  ids <-- broadcast "id_label" id_label n ;;
  tss <-- broadcast "timestamp_attribute" timestamp_attribute n ;;
  _ <-- check_sources source_list ;;
  if has_key "topic" kwargs then Err (AmbiguousConfiguration "topic")
  else if has_key "subscription" kwargs then Err (AmbiguousConfiguration "subscription")
  else Ok {| source_list := source_list; with_context := with_context;
             with_attributes := with_attributes; _kwargs := kwargs;
             _total_sources := n; id_label := ids; timestamp_attribute := tss |}.

Section Expand.

(** The element type of the streams, and what the runner's native
    implementation delivers for a [ReadFromPubSub] transform (raw bytes, or
    decoded messages with attributes). *)
Variable elem : Type.
Variable read : Read.t -> list elem.

(** Elements of the flattened output: the message itself, or the tuple
    [(source, message)]. *)
Inductive out :=
| Plain (e : elem)
| WithContext (source : string) (e : elem).

(** A per-source stream as [expand] builds it: what each of its elements
    becomes when the pipeline runs, given the value that the loop variable
    [source] of [expand] holds at that time. *)
Definition deferred := string -> out.

(** An element of a [ReadFromPubSub] stream, not mapped. *)
Definition read_element (message : elem) : deferred := fun _ => Plain message.

(** [lambda message: (source, message)]. The lambda reads the variable
    [source] of the enclosing [expand] frame when it is called, not when it
    is built: [Map(fn)] builds a [ParDo] whose constructor
    ([PTransformWithSideInputs.__init__]) checks that [fn] pickles and then
    keeps the original [fn] ([self.fn = self._cached_fn]), and the pipeline
    calls it only after [expand] has returned. *)
Definition add_context (message : elem) : deferred :=
  fun source => WithContext source message.

Definition index {A} (l : list A) (i : nat) : result A :=
  match l !! i with Some x => Ok x | None => Err IndexError end.

(** [Pipeline.apply] refuses a label that is already used. *)
Definition apply_label (label : string) (labels : list string) : result (list string) :=
  if existsb (String.eqb label) labels then Err (DuplicateLabel label)
  else Ok (label :: labels).

(** The body of the [for i, source in enumerate(self.source_list)] loop of
    [expand]; returns the [ReadFromPubSub] transforms built and the
    per-source PCollections. *)
Fixpoint expand_loop (self : t) (i : nat) (srcs : list string) (labels : list string)
  : result (list Read.t * list (list deferred)) :=
  match srcs with
  | [] => Ok ([], [])
  | source :: rest =>
      id_label <-- index (id_label self) i ;;
      timestamp_attribute <-- index (timestamp_attribute self) i ;;
      let source_split := split_on "/" source in
      source_project <-- index source_split 1 ;;
      source_type <-- index source_split 2 ;;
      let source_name := List.last source_split "" in
      let step_name_base := ("PubSub " ++ source_type ++ "/project:" ++ source_project)%string in
      let read_step_name := (step_name_base ++ "/Read " ++ source_name)%string in
      rd <-- (match _kwargs self with
              | [] =>
                  if String.eqb source_type "topics" then
                    Read.new (Some source) None id_label (with_attributes self) timestamp_attribute
                  else
                    Read.new None (Some source) id_label (with_attributes self) timestamp_attribute
              | _ :: _ => Err UnexpectedKeyword
              end) ;;
      labels1 <-- apply_label read_step_name labels ;;
      let current_source := map read_element (read rd) in
      cur <-- (if with_context self then
                 let context_step_name :=
                   (step_name_base ++ "/Add Context " ++ source_name)%string in
                 labels2 <-- apply_label context_step_name labels1 ;;
                 Ok (map add_context (read rd), labels2)
               else Ok (current_source, labels1)) ;;
      res <-- expand_loop self (S i) rest cur.2 ;;
      Ok (rd :: res.1, cur.1 :: res.2)
  end.

(** [MultipleReadFromPubSub.expand]: the transforms built, and what the
    [Flatten] of the per-source PCollections emits when the pipeline runs.
    [tuple(sources_pcol) | Flatten()] raises when [sources_pcol] is empty:
    [Flatten()] is given no [pipeline] and has no input to take one from.
    When the pipeline runs, the loop is over and [source] holds the last
    element of [source_list]. *)
Definition expand (self : t) : result (list Read.t * list out) :=
  res <-- expand_loop self 0 (source_list self) [] ;;
  match res.2 with
  | [] => Err NoPipeline
  | _ :: _ =>
      let source := List.last (source_list self) "" in
      Ok (res.1, map (fun f => f source) (List.concat res.2))
  end.

End Expand.

End Multi.

(** ** [_PubSubSink] and the [WriteToPubSub] object *)

Module Sink.

(** The attributes of a [_PubSubSink] object. *)
Record t := {
  full_topic : string;
  id_label : option string;
  with_attributes : bool;
  timestamp_attribute : option string;
  project : string;
  topic_name : string
}.

(** [_PubSubSink.__init__]: [self.project, self.topic_name = parse_topic(topic)]. *)
Definition new (topic : string) (id_label : option string) (with_attributes : bool)
    (timestamp_attribute : option string) : result t :=
  pn <-- parse_topic topic ;;
  Ok {| full_topic := topic; id_label := id_label; with_attributes := with_attributes;
        timestamp_attribute := timestamp_attribute; project := pn.1; topic_name := pn.2 |}.

End Sink.

(** [beam_runner_api_pb2.PubSubWritePayload] (proto3 strings: an unset
    field reads as [""]). *)
Record PubSubWritePayload := {
  wl_topic : string;
  wl_timestamp_attribute : string;
  wl_id_attribute : string;
  wl_with_attributes : bool;
  wl_serialized_attribute_fn : string
}.

Module WriteToPubSub.

(** A [WriteToPubSub] object. *)
Record t := {
  with_attributes : bool;
  id_label : option string;
  timestamp_attribute : option string;
  _sink : Sink.t
}.

(** [WriteToPubSub.__init__] *)
Definition new (topic : string) (with_attributes : bool) (id_label : option string)
    (timestamp_attribute : option string) : result t :=
  sink <-- Sink.new topic id_label with_attributes timestamp_attribute ;;
  Ok {| with_attributes := with_attributes; id_label := id_label;
        timestamp_attribute := timestamp_attribute; _sink := sink |}.

(** [WriteToPubSub._pubsub_write_payload] *)
Definition _pubsub_write_payload (self : t) : PubSubWritePayload :=
  {| wl_topic := Sink.full_topic (_sink self);
     wl_timestamp_attribute := pb_string (Sink.timestamp_attribute (_sink self));
     wl_id_attribute := pb_string (Sink.id_label (_sink self));
     wl_with_attributes := with_attributes self;
     wl_serialized_attribute_fn := "" |}.

(** [WriteToPubSub.from_runner_api_parameter] *)
Definition from_runner_api_parameter (p : PubSubWritePayload) : result t :=
  new (wl_topic p) (wl_with_attributes p) (Some (wl_id_attribute p))
      (Some (wl_timestamp_attribute p)).

End WriteToPubSub.

(** ** [ReadFromPubSub.expand] *)

Module ReadFromPubSub.

(** [ReadFromPubSub.expand]: [Read(self._source)] delivers the message
    payloads as [bytes]; with attributes each one goes through
    [Map(PubsubMessage._from_proto_str)]. (The object itself is [Read.t].) *)
Definition expand (with_attributes : bool) (pcoll : list bytes) : result (list pyval) :=
  if with_attributes then
    mapM (fun b => m <-- _from_proto_str b ;; Ok (PyMsg m)) pcoll
  else Ok (map PyBytes pcoll).

End ReadFromPubSub.

(** ** Vocabulary for the properties of the parsers and of
    [MultipleReadFromPubSub.expand] *)

(** Every character of [s] is matched by the atom [a]. *)
Fixpoint all_ok (a : atom) (s : string) : bool :=
  match s with
  | EmptyString => true
  | String c s' => atom_ok a c && all_ok a s'
  end.

(** [[^/]] *)
Definition NOT_SLASH : atom := ASet true [CChar "/"].

(** The step name [MultipleReadFromPubSub.expand] gives the
    [ReadFromPubSub] of [source]: [read_step_name] of the loop body. *)
Definition read_step_name (source : string) : result string :=
  let source_split := split_on "/" source in
  source_project <-- Multi.index source_split 1 ;;
  source_type <-- Multi.index source_split 2 ;;
  let source_name := List.last source_split "" in
  let step_name_base := ("PubSub " ++ source_type ++ "/project:" ++ source_project)%string in
  Ok (step_name_base ++ "/Read " ++ source_name)%string.

(** The step name of the [Map] that pairs each message with [source]
    when [with_context] is set: [context_step_name] of the loop body. *)
Definition ctx_step_name (source : string) : result string :=
  let source_split := split_on "/" source in
  source_project <-- Multi.index source_split 1 ;;
  source_type <-- Multi.index source_split 2 ;;
  let source_name := List.last source_split "" in
  let step_name_base := ("PubSub " ++ source_type ++ "/project:" ++ source_project)%string in
  Ok (step_name_base ++ "/Add Context " ++ source_name)%string.

(** A source the validation loop of [MultipleReadFromPubSub.__init__]
    lets through. *)
Definition shaped (s : string) : Prop :=
  matches TOPIC_REGEXP s || matches SUBSCRIPTION_REGEXP s = true.

(** [rd] reads [src] as a topic if [src] matches [TOPIC_REGEXP], and as a
    subscription otherwise. *)
Definition routed (src : string) (rd : Read.t) : Prop :=
  (matches TOPIC_REGEXP src = true /\
   Source.full_topic (Read._source rd) = Some src /\
   Source.full_subscription (Read._source rd) = None) \/
  (matches TOPIC_REGEXP src = false /\ matches SUBSCRIPTION_REGEXP src = true /\
   Source.full_topic (Read._source rd) = None /\
   Source.full_subscription (Read._source rd) = Some src).

(** * Proofs *)

(** Case on every [s =? ""] test left in the goal or the context. *)
Ltac case_empty :=
  repeat match goal with
  | H : context [String.eqb ?a ""] |- _ =>
      lazymatch a with EmptyString => fail | _ =>
        let E := fresh "E" in
        destruct (String.eqb a "") eqn:E; rewrite ?E in *; cbn [negb orb andb] in *
      end
  | |- context [String.eqb ?a ""] =>
      lazymatch a with EmptyString => fail | _ =>
        let E := fresh "E" in
        destruct (String.eqb a "") eqn:E; rewrite ?E in *; cbn [negb orb andb] in *
      end
  end; try discriminate.

(** ** The protobuf codec *)

Section Codec.

Lemma byte_of_nat_to_nat (n : nat) : n < 256 -> Byte.to_nat (byte_of_nat n) = n.
Proof.
  intros Hn. unfold byte_of_nat. destruct (Byte.of_nat n) eqn:E.
  - by apply Byte.to_of_nat.
  - apply Byte.of_nat_None_iff in E. lia.
Qed.

Lemma decode_encode_varint_aux (f n : nat) (rest : bytes) :
  n < f -> decode_varint (encode_varint_aux f n ++ rest) = Some (n, rest).
Proof.
  revert n. induction f as [|f IH]; intros n Hn; [lia|].
  cbn [encode_varint_aux]. destruct (Nat.ltb n 128) eqn:Hlt.
  - cbn [app decode_varint]. apply Nat.ltb_lt in Hlt.
    rewrite byte_of_nat_to_nat by lia.
    apply Nat.ltb_lt in Hlt. by rewrite Hlt.
  - apply Nat.ltb_ge in Hlt. cbn [app decode_varint].
    pose proof (Nat.mod_upper_bound n 128 ltac:(lia)) as Hm.
    rewrite byte_of_nat_to_nat by lia.
    replace (Nat.ltb (128 + n mod 128) 128) with false
      by (symmetry; apply Nat.ltb_ge; lia).
    assert (Hd : n / 128 < f).
    { pose proof (Nat.div_lt n 128 ltac:(lia) ltac:(lia)). lia. }
    rewrite (IH (n / 128) Hd).
    f_equal. f_equal. pose proof (Nat.div_mod_eq n 128). lia.
Qed.

Lemma decode_encode_varint (n : nat) (rest : bytes) :
  decode_varint (encode_varint n ++ rest) = Some (n, rest).
Proof. apply decode_encode_varint_aux. lia. Qed.

Lemma encode_varint_cons (n : nat) : exists b bs, encode_varint n = b :: bs.
Proof.
  unfold encode_varint. cbn [encode_varint_aux].
  destruct (Nat.ltb n 128); eexists _, _; reflexivity.
Qed.

Lemma take_app (p r : bytes) : take (List.length p) (p ++ r) = Some (p, r).
Proof.
  unfold take. rewrite length_app.
  replace (Nat.leb (List.length p) (List.length p + List.length r)) with true
    by (symmetry; apply Nat.leb_le; lia).
  rewrite firstn_app, Nat.sub_diag, firstn_O, app_nil_r, firstn_all.
  rewrite skipn_app, Nat.sub_diag, skipn_O, skipn_all. done.
Qed.

Lemma tag_div (field : nat) : (field * 8 + 2) / 8 = field.
Proof. rewrite Nat.div_add_l by lia. simpl. lia. Qed.

Lemma tag_mod (field : nat) : (field * 8 + 2) mod 8 = 2.
Proof. rewrite Nat.add_comm, Nat.Div0.mod_add. reflexivity. Qed.

Lemma read_field_encode_ld (field : nat) (p rest : bytes) :
  0 < field -> read_field (encode_ld field p ++ rest) = Some (field, WLen p, rest).
Proof.
  intros Hf. unfold encode_ld, read_field. rewrite <- !app_assoc.
  rewrite decode_encode_varint, tag_div, tag_mod.
  replace (Nat.eqb field 0) with false by (symmetry; apply Nat.eqb_neq; lia).
  rewrite decode_encode_varint, take_app. done.
Qed.

Lemma read_fields_step (fuel : nat) (bs : bytes) (b : byte) (tl : bytes) :
  bs = b :: tl ->
  read_fields (S fuel) bs =
  match read_field bs with
  | Some (fnum, v, r) =>
      match read_fields fuel r with Some fs => Some ((fnum, v) :: fs) | None => None end
  | None => None
  end.
Proof. intros ->. reflexivity. Qed.

Lemma read_fields_enc_fields (fs : list (nat * bytes)) (fuel : nat) :
  Forall (fun fp => 0 < fp.1) fs ->
  List.length (enc_fields fs) <= fuel ->
  read_fields fuel (enc_fields fs) = Some (map (fun fp => (fp.1, WLen fp.2)) fs).
Proof.
  revert fuel. induction fs as [|[f p] fs IH]; intros fuel Hpos Hlen; [by destruct fuel|].
  inversion Hpos as [|? ? Hf Hpos']; subst. simpl in Hf.
  unfold enc_fields in *. cbn [map List.concat fst snd] in *.
  destruct (encode_varint_cons (f * 8 + 2)) as (b & bs & Eb).
  assert (Ecl : encode_ld f p = b :: (bs ++ encode_varint (List.length p) ++ p))
    by (unfold encode_ld; rewrite Eb; done).
  destruct fuel as [|fuel].
  { rewrite length_app, Ecl in Hlen. simpl in Hlen. lia. }
  rewrite (read_fields_step _ _ b (bs ++ encode_varint (List.length p) ++ p ++
             List.concat (map (fun fp => encode_ld fp.1 fp.2) fs)))
    by (rewrite Ecl; simpl; by rewrite <- !app_assoc).
  rewrite read_field_encode_ld by done.
  rewrite IH; [done|done|].
  rewrite length_app, Ecl in Hlen. simpl in Hlen. lia.
Qed.

Lemma parse_wire_enc_fields (fs : list (nat * bytes)) :
  Forall (fun fp => 0 < fp.1) fs ->
  parse_wire (enc_fields fs) = Some (map (fun fp => (fp.1, WLen fp.2)) fs).
Proof. intros H. by apply read_fields_enc_fields. Qed.

Lemma parse_entry_encode_entry (k v : string) :
  parse_entry (encode_entry k v) = Some (k, v).
Proof.
  unfold parse_entry.
  replace (encode_entry k v)
    with (enc_fields [(1, list_byte_of_string k); (2, list_byte_of_string v)])
    by (unfold enc_fields, encode_entry; simpl; by rewrite app_nil_r).
  rewrite parse_wire_enc_fields by (repeat constructor; simpl; lia).
  simpl. by rewrite !string_of_list_byte_of_string.
Qed.

Lemma serialize_enc_fields (m : PubsubMessage_pb) :
  SerializeToString m =
  enc_fields ((match pb_data m with [] => [] | d => [(1, d)] end) ++
              map (fun kv => (2, encode_entry kv.1 kv.2)) (map_to_list (pb_attributes m))).
Proof.
  unfold SerializeToString, enc_fields. rewrite map_app, concat_app.
  f_equal.
  - destruct (pb_data m); simpl; [done|]. by rewrite app_nil_r.
  - by rewrite map_map.
Qed.

Lemma foldl_apply_entries (d : bytes) (attrs : gmap string string)
    (l : list (string * string)) :
  foldl apply_msg_field (Some {| pb_data := d; pb_attributes := attrs |})
    (map (fun fp => (fp.1, WLen fp.2)) (map (fun kv => (2, encode_entry kv.1 kv.2)) l))
  = Some {| pb_data := d;
            pb_attributes := foldl (fun acc kv => <[kv.1:=kv.2]> acc) attrs l |}.
Proof.
  revert attrs. induction l as [|[k v] l IH]; intros attrs; [done|].
  simpl. rewrite parse_entry_encode_entry. apply IH.
Qed.

Lemma foldr_insert_commute (x : string * string) (l : list (string * string))
    (m : gmap string string) :
  x.1 ∉ l.*1 ->
  foldr (fun p acc => <[p.1:=p.2]> acc) (<[x.1:=x.2]> m) l
  = <[x.1:=x.2]> (foldr (fun p acc => <[p.1:=p.2]> acc) m l).
Proof.
  induction l as [|y l IH]; intros Hx; [done|].
  simpl in *. rewrite IH by set_solver.
  rewrite insert_insert_ne; [done|]. set_solver.
Qed.

Lemma foldl_insert_foldr (l : list (string * string)) (m : gmap string string) :
  NoDup l.*1 ->
  foldl (fun acc kv => <[kv.1:=kv.2]> acc) m l
  = foldr (fun p acc => <[p.1:=p.2]> acc) m l.
Proof.
  revert m. induction l as [|x l IH]; intros m Hnd; [done|].
  simpl in *. apply NoDup_cons in Hnd as [Hx Hnd].
  rewrite IH by done. by apply foldr_insert_commute.
Qed.

(** Copying a dict item by item gives the same dict. *)
Lemma copy_map_to_list (a : gmap string string) :
  foldl (fun acc kv => <[kv.1:=kv.2]> acc) ∅ (map_to_list a) = a.
Proof.
  rewrite foldl_insert_foldr by apply NoDup_fst_map_to_list.
  apply list_to_map_to_list.
Qed.

Lemma ParseFromString_Serialize (d : bytes) (a : gmap string string) :
  ParseFromString (SerializeToString {| pb_data := d; pb_attributes := a |})
  = Some {| pb_data := d; pb_attributes := a |}.
Proof.
  unfold ParseFromString. rewrite serialize_enc_fields.
  rewrite parse_wire_enc_fields.
  2:{ apply Forall_app; split.
      - simpl. destruct d; repeat constructor; simpl; lia.
      - apply Forall_map, Forall_true. intros. simpl. lia. }
  rewrite map_app, foldl_app. cbn [pb_data pb_attributes].
  transitivity
    (foldl apply_msg_field
       (Some {| pb_data := d; pb_attributes := (∅ : gmap string string) |})
       (map (fun fp => (fp.1, WLen fp.2))
          (map (fun kv => (2, encode_entry kv.1 kv.2)) (map_to_list a)))).
  { f_equal. destruct d; reflexivity. }
  rewrite foldl_apply_entries, copy_map_to_list. done.
Qed.

(** Whatever bytes it is given, [_from_proto_str] never produces a
    message whose [data] or [attributes] is [None]. *)
Lemma from_proto_str_present (bs : bytes) (m : PubsubMessage) :
  _from_proto_str bs = Ok m -> is_Some (data m) /\ is_Some (attributes m).
Proof.
  unfold _from_proto_str, new_PubsubMessage.
  destruct (ParseFromString bs); simpl; [|discriminate].
  intros H. injection H as <-. simpl. split; eexists; reflexivity.
Qed.

End Codec.

(** ** The regular-expression matcher *)

Section Regex.

(** A continuation that succeeds more often makes the matcher succeed more
    often. *)
Definition cont_le (k1 k2 : cont) : Prop :=
  forall rest c, k1 rest c <> None -> k2 rest c <> None.

Lemma try_counts_mono (lo n : nat) (s : string) (caps : captures) (k1 k2 : cont) :
  cont_le k1 k2 ->
  try_counts lo n s caps k1 <> None -> try_counts lo n s caps k2 <> None.
Proof.
  intros Hk. induction n as [|n IH]; simpl.
  - destruct (Nat.ltb 0 lo); [done|].
    destruct (k1 _ caps) eqn:E1; [|done].
    intros _. destruct (k2 _ caps) eqn:E2; [done|].
    exfalso. eapply Hk; [rewrite E1; discriminate | exact E2].
  - destruct (Nat.ltb (S n) lo); [done|].
    destruct (k1 _ caps) eqn:E1.
    + intros _. destruct (k2 _ caps) eqn:E2; [done|].
      exfalso. eapply Hk; [rewrite E1; discriminate | exact E2].
    + intros H. destruct (k2 _ caps); [done|]. by apply IH.
Qed.

Lemma run_mono (r : regex) :
  forall s caps k1 k2, cont_le k1 k2 -> run r s caps k1 <> None -> run r s caps k2 <> None.
Proof.
  induction r as [t|a|a lo hi|r1 IH1 r2 IH2|r1 IH]; intros s caps k1 k2 Hk; simpl.
  - destruct (strip t s); [apply Hk | done].
  - destruct s as [|c s']; [done|]. destruct (atom_ok a c); [apply Hk | done].
  - by apply try_counts_mono.
  - apply IH1. intros rest c. by apply IH2.
  - apply IH. intros rest c. apply Hk.
Qed.

(** A string in the language of [^pattern$] is matched by [re.match]. *)
Lemma fullmatch_match (r : regex) (s : string) :
  fullmatch r s <> None -> match_ r s <> None.
Proof.
  apply run_mono. intros rest c _. done.
Qed.

End Regex.

(** ** [_PubSubSource.__init__] *)

Section SourceProofs.

Lemma truthy_false_pb (o : option string) :
  truthy o = false -> truthy (Some (pb_string o)) = false.
Proof. destruct o; cbn; [done|reflexivity]. Qed.

(** A successful [_PubSubSource(...)] parsed exactly one of its two
    addresses. *)
Lemma Source_new_ok (topic sub id : option string) (wa : bool) (ts : option string)
    (s : Source.t) :
  Source.new topic sub id wa ts = Ok s ->
  (exists tp p n, topic = Some tp /\ String.eqb tp "" = false /\ truthy sub = false /\
     parse_topic tp = Ok (p, n) /\
     s = {| Source.full_topic := topic; Source.full_subscription := sub;
            Source.topic_name := Some n; Source.subscription_name := None;
            Source.project := Some p; Source.id_label := id;
            Source.with_attributes := wa; Source.timestamp_attribute := ts |}) \/
  (exists sb p n, sub = Some sb /\ String.eqb sb "" = false /\ truthy topic = false /\
     parse_subscription sb = Ok (p, n) /\
     s = {| Source.full_topic := topic; Source.full_subscription := sub;
            Source.topic_name := None; Source.subscription_name := Some n;
            Source.project := Some p; Source.id_label := id;
            Source.with_attributes := wa; Source.timestamp_attribute := ts |}).
Proof.
  unfold Source.new. intros H.
  destruct (truthy topic) eqn:Ht, (truthy sub) eqn:Hsb; cbn [negb orb andb] in H;
    try discriminate.
  - left. destruct topic as [tp|]; [|discriminate].
    destruct (parse_topic tp) as [[p n]|e] eqn:Hp; cbn [bind] in H; [|discriminate].
    destruct sub as [sb|]; injection H as <-; exists tp, p, n; cbn in Ht;
      split_and!; try done; by destruct (String.eqb tp "").
  - right. destruct sub as [sb|]; [|discriminate].
    destruct (parse_subscription sb) as [[p n]|e] eqn:Hp;
      destruct topic as [tp|]; cbn [bind] in H; rewrite ?Hp in H; cbn [bind] in H;
      try discriminate; injection H as <-; exists sb, p, n; cbn in Hsb;
      split_and!; try done; by destruct (String.eqb sb "").
Qed.

Lemma Source_new_topic (tp : string) (sub id : option string) (wa : bool)
    (ts : option string) (p n : string) :
  String.eqb tp "" = false -> truthy sub = false -> parse_topic tp = Ok (p, n) ->
  Source.new (Some tp) sub id wa ts =
  Ok {| Source.full_topic := Some tp; Source.full_subscription := sub;
        Source.topic_name := Some n; Source.subscription_name := None;
        Source.project := Some p; Source.id_label := id;
        Source.with_attributes := wa; Source.timestamp_attribute := ts |}.
Proof.
  intros E Hs Hp. unfold Source.new. cbn [truthy]. rewrite E, Hs. cbn [negb orb andb].
  rewrite Hp. cbn [bind]. by destruct sub.
Qed.

Lemma Source_new_subscription (topic : option string) (sb : string) (id : option string)
    (wa : bool) (ts : option string) (p n : string) :
  String.eqb sb "" = false -> truthy topic = false -> parse_subscription sb = Ok (p, n) ->
  Source.new topic (Some sb) id wa ts =
  Ok {| Source.full_topic := topic; Source.full_subscription := Some sb;
        Source.topic_name := None; Source.subscription_name := Some n;
        Source.project := Some p; Source.id_label := id;
        Source.with_attributes := wa; Source.timestamp_attribute := ts |}.
Proof.
  intros E Ht Hp. unfold Source.new. cbn [truthy]. rewrite E, Ht. cbn [negb orb andb].
  destruct topic as [tp|]; cbn [bind]; rewrite ?E; cbn [negb];
    rewrite Hp; reflexivity.
Qed.

End SourceProofs.

Lemma zip_with_snd {A B C} (g : B -> C) (l1 : list A) (l2 : list B) :
  List.length l1 = List.length l2 -> zip_with (fun _ b => g b) l1 l2 = map g l2.
Proof.
  revert l2. induction l1 as [|x l1 IH]; intros [|y l2] H; try done.
  cbn. f_equal. apply IH. by injection H.
Qed.

Lemma concat_map_deferred (elem : Type) (read : Read.t -> list elem) (source : string)
    (cfgs : list Read.t) :
  map (fun f : string -> Multi.out elem => f source)
    (List.concat (map (fun rd => map (Multi.add_context elem) (read rd)) cfgs))
  = List.concat (map (fun rd => map (Multi.WithContext elem source) (read rd)) cfgs).
Proof.
  induction cfgs as [|rd cfgs IH]; [done|].
  cbn [map List.concat]. rewrite map_app. f_equal; [by rewrite map_map|exact IH].
Qed.

(** For a message with [data] and [attributes] set, decoding the
    encoding gives the message back. *)
Lemma roundtrip_present (d : bytes) (a : gmap string string) :
  bind (_to_proto_str {| data := Some d; attributes := Some a |}) _from_proto_str
  = Ok {| data := Some d; attributes := Some a |}.
Proof.
  unfold _to_proto_str, copy_attributes. cbn [bind set_data data attributes].
  rewrite copy_map_to_list. cbn [bind].
  unfold _from_proto_str. rewrite ParseFromString_Serialize.
  cbn [pb_data pb_attributes]. rewrite copy_map_to_list. reflexivity.
Qed.

(** * The claims *)

(** ** Messages and their encoding *)

(** C1: for a valid message (one that [PubsubMessage(data, attributes)]
    builds), [_to_proto_str] raises when [data] is [None] ([msg.data = None]
    is refused by the protobuf setter) and when [attributes] is [None]
    ([iteritems(None)]), although the class documents both fields as
    possibly [None]; when both are set, decoding the encoding gives the
    message back. Whatever it decodes, [_from_proto_str] yields [data] and
    [attributes] set: proto3 has no [None] for them. *)
Theorem C1_encode_valid_message (d : option bytes) (a : option (gmap string string))
    (m : PubsubMessage) :
  new_PubsubMessage d a = Ok m ->
  (d = None -> _to_proto_str m = Err ProtoTypeError) /\
  (d <> None -> a = None -> _to_proto_str m = Err NotIterable) /\
  (forall d' a', d = Some d' -> a = Some a' -> bind (_to_proto_str m) _from_proto_str = Ok m) /\
  (forall bs m', _from_proto_str bs = Ok m' -> is_Some (data m') /\ is_Some (attributes m')).
Proof.
  unfold new_PubsubMessage. intros H.
  destruct (is_None d && negb (attributes_truthy a)); [discriminate|].
  injection H as <-. split_and!.
  - intros ->. reflexivity.
  - intros Hd ->. destruct d; [reflexivity|contradiction].
  - intros d' a' -> ->. apply roundtrip_present.
  - apply from_proto_str_present.
Qed.

(** C8: constructing a message fails, with the usage error, exactly when
    [data] is [None] and [attributes] is [None] or empty; otherwise it
    stores the two fields as given ([data = b""] counts as present). *)
Theorem C8_message_construction (d : option bytes) (a : option (gmap string string)) :
  ((exists e, new_PubsubMessage d a = Err e) <-> d = None /\ (a = None \/ a = Some ∅)) /\
  (forall e, new_PubsubMessage d a = Err e -> e = MessageUnset) /\
  (forall m, new_PubsubMessage d a = Ok m -> m = {| data := d; attributes := a |}).
Proof.
  unfold new_PubsubMessage, attributes_truthy.
  split; [|split].
  - destruct d as [b|]; simpl.
    + split; [intros [e He]; discriminate | intros [H _]; discriminate].
    + destruct a as [m|]; simpl.
      * case_bool_decide as Hm; simpl.
        -- subst. split; [intros _; auto | intros _; eexists; reflexivity].
        -- split; [intros [e He]; discriminate|].
           intros [_ [H|H]]; [discriminate | injection H as ->; contradiction].
      * split; [intros _; auto | intros _; eexists; reflexivity].
  - intros e. destruct (is_None d && _); intros H; [by injection H | discriminate].
  - intros m. destruct (is_None d && _); intros H; [discriminate | by injection H].
Qed.

(** ** Resource names *)

(** C3 (code bug): [re.match(PROJECT_ID_REGEXP, project)] is anchored at
    the start only, so a project id is accepted as soon as a prefix of it
    is in the grammar: [abcdef-] (ending in [-]) and a 64-character id
    pass [parse_topic] and [parse_subscription], although the full grammar
    rejects them. The converse holds: a project id rejected with
    [InvalidProjectId] is never in the grammar. *)
Theorem C3_project_id_prefix_only :
  parse_topic "projects/abcdef-/topics/t" = Ok ("abcdef-", "t") /\
  parse_subscription "projects/abcdef-/subscriptions/s" = Ok ("abcdef-", "s") /\
  fullmatch PROJECT_ID_REGEXP "abcdef-" = None /\
  parse_topic "projects/abcdefghijabcdefghijabcdefghijabcdefghijabcdefghijabcdefghijabcd/topics/t"
    = Ok ("abcdefghijabcdefghijabcdefghijabcdefghijabcdefghijabcdefghijabcd", "t") /\
  String.length "abcdefghijabcdefghijabcdefghijabcdefghijabcdefghijabcdefghijabcd" = 64 /\
  (forall s p, (parse_topic s = Err (InvalidProjectId p) \/
                parse_subscription s = Err (InvalidProjectId p)) ->
               fullmatch PROJECT_ID_REGEXP p = None).
Proof.
  split; [vm_compute; reflexivity|].
  split; [vm_compute; reflexivity|].
  split; [vm_compute; reflexivity|].
  split; [vm_compute; reflexivity|].
  split; [reflexivity|].
  intros s p Hp.
  assert (Hm : matches PROJECT_ID_REGEXP p = false).
  { unfold parse_topic, parse_subscription in Hp.
    destruct Hp as [Hp|Hp]; repeat case_match; simplify_eq; done. }
  destruct (fullmatch PROJECT_ID_REGEXP p) eqn:Ef; [|done].
  exfalso. unfold matches in Hm.
  destruct (match_ PROJECT_ID_REGEXP p) eqn:Em; [discriminate|].
  apply (fullmatch_match PROJECT_ID_REGEXP p); [by rewrite Ef | exact Em].
Qed.

(** C4 (code bug): [.] in [TOPIC_REGEXP] does not match a newline and
    [re.match] does not need to reach the end of the string, so for
    [projects/abcdef/topics/a\nb] [parse_topic] succeeds with the name
    [a]: re-joining the parts does not give the input back, and the input
    is not rejected with [InvalidFormat] either. *)
Theorem C4_name_cut_at_newline :
  parse_topic ("projects/abcdef/topics/a" ++ String "010" "b")%string
    = Ok ("abcdef", "a") /\
  ("projects/" ++ "abcdef" ++ "/topics/" ++ "a")%string
    <> ("projects/abcdef/topics/a" ++ String "010" "b")%string.
Proof.
  split; [vm_compute; reflexivity | discriminate].
Qed.

(** ** Source configuration *)

(** C5: [_PubSubSource.__init__] fails with the missing-address error
    when neither [topic] nor [subscription] is given (absent meaning
    [None] or [""], the test being [not (topic or subscription)]), with
    the conflicting-address error when both are; on success exactly one of
    [topic_name] / [subscription_name] is set, together with [project],
    from the corresponding parser, and a parser error is raised as is. *)
Theorem C5_source_config (topic subscription id_label ts : option string) (wa : bool) :
  (truthy topic = false -> truthy subscription = false ->
   Source.new topic subscription id_label wa ts = Err MissingAddress) /\
  (truthy topic = true -> truthy subscription = true ->
   Source.new topic subscription id_label wa ts = Err ConflictingAddress) /\
  (forall src, Source.new topic subscription id_label wa ts = Ok src ->
     (exists tp p n, topic = Some tp /\ truthy topic = true /\ parse_topic tp = Ok (p, n) /\
        Source.project src = Some p /\ Source.topic_name src = Some n /\
        Source.subscription_name src = None) \/
     (exists sb p n, subscription = Some sb /\ truthy subscription = true /\
        parse_subscription sb = Ok (p, n) /\
        Source.project src = Some p /\ Source.subscription_name src = Some n /\
        Source.topic_name src = None)) /\
  (forall tp e, topic = Some tp -> truthy topic = true -> truthy subscription = false ->
     parse_topic tp = Err e -> Source.new topic subscription id_label wa ts = Err e) /\
  (forall sb e, subscription = Some sb -> truthy subscription = true -> truthy topic = false ->
     parse_subscription sb = Err e -> Source.new topic subscription id_label wa ts = Err e).
Proof.
  unfold Source.new.
  split; [intros -> ->; reflexivity|].
  split; [intros -> ->; reflexivity|].
  split; [|split].
  - intros src H.
    destruct topic as [tp|], subscription as [sb|]; cbn [truthy] in *;
      unfold bind in *; repeat (case_match; simplify_eq/=).
    all: repeat match goal with pr : (string * string)%type |- _ => destruct pr end;
      cbn [fst snd];
      first [ left; eexists _, _, _; split_and!; (done || reflexivity)
            | right; eexists _, _, _; split_and!; (done || reflexivity) ].
  - intros tp e -> Ht Hs Hp. unfold bind.
    destruct subscription as [sb|]; cbn [truthy] in *;
      destruct (String.eqb tp ""); try discriminate;
      [destruct (String.eqb sb ""); try discriminate|]; simpl; rewrite Hp; reflexivity.
  - intros sb e -> Hs Ht Hp. unfold bind.
    destruct topic as [tp|]; cbn [truthy] in *;
      destruct (String.eqb sb ""); try discriminate;
      [destruct (String.eqb tp ""); try discriminate|]; simpl; rewrite Hp; reflexivity.
Qed.

(** C10: an empty [topic] or [subscription] counts as absent: [("", "")]
    and [(None, None)] both give the missing-address error, and
    [topic=""] with a subscription behaves as [topic=None]: same outcome,
    same parsed fields; only the stored [full_topic] records [""], which
    the exported payload writes as [""] for [None] too. *)
Theorem C10_empty_string_is_absent (sb : string) (id_label ts : option string) (wa : bool) :
  Source.new (Some "") (Some "") id_label wa ts = Err MissingAddress /\
  Source.new None None id_label wa ts = Err MissingAddress /\
  (forall e, Source.new None (Some sb) id_label wa ts = Err e ->
             Source.new (Some "") (Some sb) id_label wa ts = Err e) /\
  (forall src, Source.new None (Some sb) id_label wa ts = Ok src ->
     Source.new (Some "") (Some sb) id_label wa ts =
       Ok {| Source.full_topic := Some "";
             Source.full_subscription := Source.full_subscription src;
             Source.topic_name := Source.topic_name src;
             Source.subscription_name := Source.subscription_name src;
             Source.project := Source.project src;
             Source.id_label := Source.id_label src;
             Source.with_attributes := Source.with_attributes src;
             Source.timestamp_attribute := Source.timestamp_attribute src |}) /\
  (forall r1 r2, Read.new None (Some sb) id_label wa ts = Ok r1 ->
     Read.new (Some "") (Some sb) id_label wa ts = Ok r2 ->
     Read._pubsub_read_payload r2 = Read._pubsub_read_payload r1).
Proof.
  unfold Read.new, Read._pubsub_read_payload, Source.new. cbn [truthy negb orb andb].
  destruct (String.eqb sb "") eqn:Hsb; simpl.
  { repeat split; intros; simplify_eq; done. }
  destruct (parse_subscription sb) as [[p n]|e]; simpl.
  - repeat split; intros; simplify_eq; done.
  - repeat split; intros; simplify_eq; done.
Qed.

(** ** The portable payload of [ReadFromPubSub] *)

(** C6 (amended): exporting a [ReadFromPubSub] to its
    [PubSubReadPayload] and rebuilding it with
    [from_runner_api_parameter] always succeeds and gives a transform with
    the same [with_attributes] flag, the same parsed project and
    topic/subscription names and the same payload; topic, subscription,
    [id_label] and [timestamp_attribute] come back as they were, except
    that a [None] comes back as [""]. *)
Theorem C6_payload_roundtrip (topic sub id ts : option string) (wa : bool) (r : Read.t) :
  Read.new topic sub id wa ts = Ok r ->
  exists r', Read.from_runner_api_parameter (Read._pubsub_read_payload r) = Ok r' /\
    Read.with_attributes r' = Read.with_attributes r /\
    Source.full_topic (Read._source r') = Some (pb_string (Source.full_topic (Read._source r))) /\
    Source.full_subscription (Read._source r')
      = Some (pb_string (Source.full_subscription (Read._source r))) /\
    Source.id_label (Read._source r') = Some (pb_string (Source.id_label (Read._source r))) /\
    Source.timestamp_attribute (Read._source r')
      = Some (pb_string (Source.timestamp_attribute (Read._source r))) /\
    Source.project (Read._source r') = Source.project (Read._source r) /\
    Source.topic_name (Read._source r') = Source.topic_name (Read._source r) /\
    Source.subscription_name (Read._source r') = Source.subscription_name (Read._source r) /\
    Read._pubsub_read_payload r' = Read._pubsub_read_payload r.
Proof.
  unfold Read.new, bind. intros H.
  destruct (Source.new topic sub id wa ts) as [s|e] eqn:Hs; [|discriminate].
  injection H as <-.
  unfold Read.from_runner_api_parameter, Read._pubsub_read_payload, Read.new.
  cbn [Read._source Read.with_attributes].
  apply Source_new_ok in Hs as [(tp & p & n & -> & E & Hsb & Hp & ->)
                               |(sb & p & n & -> & E & Htp & Hp & ->)];
    cbn [Source.full_topic Source.full_subscription Source.id_label
         Source.timestamp_attribute pb_string].
  - rewrite (Source_new_topic _ _ _ _ _ _ _ E (truthy_false_pb _ Hsb) Hp).
    cbn [bind]. eexists. split_and!; reflexivity.
  - rewrite (Source_new_subscription _ _ _ _ _ _ _ E (truthy_false_pb _ Htp) Hp).
    cbn [bind]. eexists. split_and!; reflexivity.
Qed.

(** C6, counterexample: [ReadFromPubSub(topic="projects/abcdef/topics/t")]
    has [subscription], [id_label] and [timestamp_attribute] equal to
    [None]; the rebuilt transform has [""] for all three. *)
Lemma C6_None_comes_back_empty :
  exists r r',
    Read.new (Some "projects/abcdef/topics/t") None None false None = Ok r /\
    Read.from_runner_api_parameter (Read._pubsub_read_payload r) = Ok r' /\
    Source.full_subscription (Read._source r) = None /\
    Source.full_subscription (Read._source r') = Some "" /\
    Source.id_label (Read._source r) = None /\
    Source.id_label (Read._source r') = Some "" /\
    Source.timestamp_attribute (Read._source r) = None /\
    Source.timestamp_attribute (Read._source r') = Some "".
Proof.
  do 2 eexists. split; [vm_compute; reflexivity|].
  split; [vm_compute; reflexivity|].
  split_and!; reflexivity.
Qed.

(** ** [WriteToPubSub] with attributes *)

(** C9: with [with_attributes=True], an element that is not a
    [PubsubMessage] fails with a [TypeError] whose message contains
    [str(type(element))] and [repr(element)]; a message is mapped through
    [_to_proto_str]; a successful [expand] hands on exactly the encodings
    of its input messages, and any non-message element makes it fail. *)
Theorem C9_write_with_attributes (py_repr : pyval -> string) :
  (forall v, (forall m, v <> PyMsg m) ->
     exists msg, Write.to_proto_str py_repr v = Err (TypeMismatch msg) /\
       exists pre mid, msg = (pre ++ py_type v ++ mid ++ py_repr v)%string) /\
  (forall m, Write.to_proto_str py_repr (PyMsg m) = _to_proto_str m) /\
  (forall pcoll out, Write.expand py_repr true pcoll = Ok out ->
     Forall2 (fun v o => exists m b, v = PyMsg m /\ _to_proto_str m = Ok b /\ o = PyBytes b)
       pcoll out) /\
  (forall pcoll v, In v pcoll -> (forall m, v <> PyMsg m) ->
     exists e, Write.expand py_repr true pcoll = Err e).
Proof.
  split; [|split; [|split]].
  - intros v Hv. destruct v as [b|s|z| |m]; try (exfalso; by apply (Hv m));
      eexists; (split; [reflexivity|]); eexists _, _; reflexivity.
  - reflexivity.
  - intros pcoll. unfold Write.expand. cbn [bind].
    induction pcoll as [|v pcoll IH]; intros out H; simpl in H.
    + injection H as <-. constructor.
    + destruct (Write.to_proto_str py_repr v) as [b|e] eqn:Hv; simpl in H; [|discriminate].
      destruct (mapM (Write.to_proto_str py_repr) pcoll) as [bs|e] eqn:Hbs;
        simpl in H; [|discriminate].
      injection H as <-. simpl. constructor.
      * destruct v; try discriminate. eexists _, _. split_and!; [reflexivity|exact Hv|reflexivity].
      * apply IH. reflexivity.
  - intros pcoll v Hin Hv. unfold Write.expand. cbn [bind].
    induction pcoll as [|w pcoll IH]; [done|]. simpl.
    destruct Hin as [->|Hin].
    + destruct v; try (exfalso; by eapply Hv).
      all: eexists; reflexivity.
    + destruct (Write.to_proto_str py_repr w); simpl; [|eexists; reflexivity].
      destruct (IH Hin) as [e He].
      destruct (mapM (Write.to_proto_str py_repr) pcoll); simpl in *; [discriminate|].
      eexists; reflexivity.
Qed.

(** ** [MultipleReadFromPubSub] *)

Section MultiProofs.

Lemma Read_new_fields (topic sub id ts : option string) (wa : bool) (rd : Read.t) :
  Read.new topic sub id wa ts = Ok rd ->
  Read.with_attributes rd = wa /\
  Source.full_topic (Read._source rd) = topic /\
  Source.full_subscription (Read._source rd) = sub /\
  Source.id_label (Read._source rd) = id /\
  Source.timestamp_attribute (Read._source rd) = ts.
Proof.
  unfold Read.new, bind. intros H.
  destruct (Source.new topic sub id wa ts) as [s|e] eqn:Hs; [|discriminate].
  injection H as <-. cbn [Read.with_attributes Read._source].
  apply Source_new_ok in Hs as [(? & ? & ? & _ & _ & _ & _ & ->)|(? & ? & ? & _ & _ & _ & _ & ->)];
    done.
Qed.

Variable elem : Type.
Variable read : Read.t -> list elem.

(** What the [i]-th iteration of the loop contributes. *)
Lemma expand_loop_spec (self : Multi.t) (srcs : list string) :
  forall i labels cfgs pcols,
  Multi.expand_loop elem read self i srcs labels = Ok (cfgs, pcols) ->
  List.length cfgs = List.length srcs /\
  pcols = zip_with (fun src rd =>
            if Multi.with_context self then map (Multi.add_context elem) (read rd)
            else map (Multi.read_element elem) (read rd)) srcs cfgs /\
  (forall j src, srcs !! j = Some src ->
     exists rd, cfgs !! j = Some rd /\
       Multi.id_label self !! (i + j) = Some (Source.id_label (Read._source rd)) /\
       Multi.timestamp_attribute self !! (i + j)
         = Some (Source.timestamp_attribute (Read._source rd)) /\
       Read.with_attributes rd = Multi.with_attributes self /\
       (Source.full_topic (Read._source rd) = Some src \/
        Source.full_subscription (Read._source rd) = Some src)).
Proof.
  induction srcs as [|src srcs IH]; intros i labels cfgs pcols H.
  { simpl in H. injection H as <- <-. split_and!; [done|done|]. intros j src Hj. done. }
  cbn [Multi.expand_loop] in H. cbv zeta in H. unfold bind in H.
  repeat match type of H with
  | match ?x with Ok _ => _ | Err _ => _ end = _ =>
      let E := fresh "E" in destruct x eqn:E; [|discriminate]
  end.
  match goal with r : (list (Multi.deferred elem) * list string)%type |- _ => rename r into cur end.
  match goal with r : (list Read.t * list (list (Multi.deferred elem)))%type |- _ =>
    rename r into res end.
  injection H as <- <-.
  unfold Multi.index in *.
  repeat match goal with
  | E : match ?l !! ?k with Some _ => _ | None => _ end = Ok _ |- _ =>
      let L := fresh "L" in
      destruct (l !! k) eqn:L; [injection E as <-|discriminate]
  end.
  match goal with E : match Multi._kwargs self with _ => _ end = Ok ?rd |- _ =>
    rename E into Hrd; rename rd into r end.
  match goal with L : Multi.id_label self !! i = Some ?x |- _ =>
    rename L into Lid; rename x into idl end.
  match goal with L : Multi.timestamp_attribute self !! i = Some ?x |- _ =>
    rename L into Lts; rename x into tsa end.
  match goal with E : (if Multi.with_context self then _ else _) = Ok cur |- _ =>
    rename E into Hcur end.
  match goal with E : Multi.expand_loop _ _ _ _ _ _ = Ok res |- _ =>
    rename E into Hl end.
  destruct res as [cs ps]. apply IH in Hl as (Hlen & Hpc & Hnth).
  assert (Hc : cur.1 = if Multi.with_context self
                       then map (Multi.add_context elem) (read r)
                       else map (Multi.read_element elem) (read r)).
  { destruct (Multi.with_context self).
    - match type of Hcur with match ?x with _ => _ end = _ =>
        destruct x; [|discriminate] end.
      by injection Hcur as <-.
    - by injection Hcur as <-. }
  assert (Hr : Read.with_attributes r = Multi.with_attributes self /\
               (Source.full_topic (Read._source r) = Some src \/
                Source.full_subscription (Read._source r) = Some src) /\
               Source.id_label (Read._source r) = idl /\
               Source.timestamp_attribute (Read._source r) = tsa).
  { destruct (Multi._kwargs self); [|discriminate].
    destruct (String.eqb _ "topics");
      apply Read_new_fields in Hrd as (Hwa & Ht & Hs & Hi & Hts); split_and!; auto. }
  destruct Hr as (Hwa & Hsrc & Hi & Hts).
  cbn [fst snd]. split_and!.
  - cbn. by rewrite Hlen.
  - cbn [zip_with]. by rewrite Hc, Hpc.
  - intros [|j] src' Hj; cbn in Hj.
    + injection Hj as <-. exists r. rewrite Nat.add_0_r, Hi, Hts. done.
    + destruct (Hnth j src' Hj) as (rd' & ? & Hid & Hts' & ? & ?).
      exists rd'. replace (i + S j) with (S i + j) by lia. done.
Qed.

Lemma expand_configs (self : Multi.t) (cfgs : list Read.t) (out : list (Multi.out elem)) :
  Multi.expand elem read self = Ok (cfgs, out) ->
  List.length cfgs = List.length (Multi.source_list self) /\
  forall j rd, cfgs !! j = Some rd ->
    Multi.id_label self !! j = Some (Source.id_label (Read._source rd)) /\
    Multi.timestamp_attribute self !! j = Some (Source.timestamp_attribute (Read._source rd)).
Proof.
  unfold Multi.expand, bind. intros H.
  destruct (Multi.expand_loop elem read self 0 (Multi.source_list self) [])
    as [[cs ps]|e] eqn:Hl; [|discriminate].
  cbn [fst snd] in H. destruct ps; [discriminate|].
  injection H as <- _. apply expand_loop_spec in Hl as (Hlen & _ & Hnth).
  split; [done|]. intros j rd Hrd.
  destruct (lookup_lt_is_Some_2 (Multi.source_list self) j) as [src Hs].
  { rewrite <- Hlen. by eapply lookup_lt_Some. }
  destruct (Hnth j src Hs) as (rd' & Hrd' & Hid & Hts & _).
  rewrite Hrd in Hrd'. injection Hrd' as <-. done.
Qed.

End MultiProofs.

Lemma Multi_new_ok (srcs : list string) (wc wa : bool) (id ts : Multi.param)
    (kw : list (string * string)) (self : Multi.t) :
  Multi.new srcs wc id wa ts kw = Ok self ->
  Multi.source_list self = srcs /\
  Multi.broadcast "id_label" id (List.length srcs) = Ok (Multi.id_label self) /\
  Multi.broadcast "timestamp_attribute" ts (List.length srcs)
    = Ok (Multi.timestamp_attribute self).
Proof.
  unfold Multi.new, bind. intros H.
  destruct (Multi.broadcast "id_label" id _) as [ids|e] eqn:E1; [|discriminate].
  destruct (Multi.broadcast "timestamp_attribute" ts _) as [tss|e] eqn:E2; [|discriminate].
  destruct (Multi.check_sources srcs); [|discriminate].
  destruct (Multi.has_key "topic" kw); [discriminate|].
  destruct (Multi.has_key "subscription" kw); [discriminate|].
  injection H as <-. done.
Qed.

(** C2: with [with_context=True], the output of [expand] is the
    concatenation, source by source in the order of [source_list], of the
    elements read by the [ReadFromPubSub] built for that source; but every
    element is paired with the LAST string of [source_list], which the
    closure [lambda message: (source, message)] finds in [source] when the
    pipeline runs, not with the source it was read from. *)
Theorem C2_context_last_source (elem : Type) (read : Read.t -> list elem)
    (self : Multi.t) (cfgs : list Read.t) (out : list (Multi.out elem)) :
  Multi.with_context self = true ->
  Multi.expand elem read self = Ok (cfgs, out) ->
  Multi.source_list self <> [] /\
  List.length cfgs = List.length (Multi.source_list self) /\
  (forall i src rd, Multi.source_list self !! i = Some src -> cfgs !! i = Some rd ->
     Source.full_topic (Read._source rd) = Some src \/
     Source.full_subscription (Read._source rd) = Some src) /\
  out = List.concat (map (fun rd =>
          map (Multi.WithContext elem (List.last (Multi.source_list self) "")) (read rd)) cfgs) /\
  (forall o, In o out ->
     exists e, o = Multi.WithContext elem (List.last (Multi.source_list self) "") e).
Proof.
  intros Hwc H. unfold Multi.expand, bind in H.
  destruct (Multi.expand_loop elem read self 0 (Multi.source_list self) []) as [[cs pcols]|e]
    eqn:Hl; [|discriminate].
  apply expand_loop_spec in Hl as (Hlen & Hpc & Hnth).
  rewrite Hwc in Hpc. cbv beta iota in Hpc.
  rewrite (zip_with_snd (fun rd => map (Multi.add_context elem) (read rd))
             (Multi.source_list self) cs (eq_sym Hlen)) in Hpc.
  subst pcols. cbn [fst snd] in H.
  assert (Hne : Multi.source_list self <> []).
  { intros Hs. rewrite Hs in Hlen. destruct cs; [discriminate H|discriminate Hlen]. }
  destruct cs as [|c cs]; [discriminate|].
  injection H as <- Hout.
  change (map (Multi.add_context elem) (read c) ++
          List.concat (map (fun rd => map (Multi.add_context elem) (read rd)) cs))
    with (List.concat (map (fun rd => map (Multi.add_context elem) (read rd)) (c :: cs)))
    in Hout.
  rewrite concat_map_deferred in Hout.
  split_and!; [done|done| |done|].
  - intros i src rd Hs Hr. destruct (Hnth i src Hs) as (rd' & Hr' & _ & _ & _ & Hsrc).
    rewrite Hr in Hr'. by injection Hr' as <-.
  - intros o Ho. rewrite <- Hout in Ho. apply in_concat in Ho as (l & Hl & Ho).
    apply in_map_iff in Hl as (rd & <- & _). apply in_map_iff in Ho as (e & <- & _).
    by exists e.
Qed.

(** C7 (amended): a [str] or [None] given as [id_label] (resp.
    [timestamp_attribute]) is broadcast: the object stores [N] copies and
    every [ReadFromPubSub] built by [expand] gets that value. An [id_label]
    list of length [L <> N] makes the constructor fail with the
    count-mismatch error reporting [L] and [N], whatever
    [timestamp_attribute] is. A [timestamp_attribute] list of length
    [L <> N] always makes it fail with a count-mismatch error; the error
    reports that list's [L] and [N] when [id_label] passes its check. *)
Theorem C7_parameter_broadcast (srcs : list string) (wc wa : bool)
    (id ts : Multi.param) (kw : list (string * string)) :
  (forall l, id = Multi.PList l -> List.length l <> List.length srcs ->
     Multi.new srcs wc id wa ts kw
       = Err (ParameterCountMismatch "id_label" (List.length l) (List.length srcs))) /\
  (forall l, ts = Multi.PList l -> List.length l <> List.length srcs ->
     (forall l', id = Multi.PList l' -> List.length l' = List.length srcs) ->
     Multi.new srcs wc id wa ts kw
       = Err (ParameterCountMismatch "timestamp_attribute" (List.length l) (List.length srcs))) /\
  (forall l, ts = Multi.PList l -> List.length l <> List.length srcs ->
     exists name got, Multi.new srcs wc id wa ts kw
       = Err (ParameterCountMismatch name got (List.length srcs))) /\
  (forall self v, Multi.new srcs wc id wa ts kw = Ok self ->
     (id = Multi.PNone /\ v = None) \/ (exists s, id = Multi.PStr s /\ v = Some s) ->
     Multi.id_label self = replicate (List.length srcs) v /\
     forall elem read cfgs out, Multi.expand elem read self = Ok (cfgs, out) ->
       List.length cfgs = List.length srcs /\
       Forall (fun rd => Source.id_label (Read._source rd) = v) cfgs) /\
  (forall self v, Multi.new srcs wc id wa ts kw = Ok self ->
     (ts = Multi.PNone /\ v = None) \/ (exists s, ts = Multi.PStr s /\ v = Some s) ->
     Multi.timestamp_attribute self = replicate (List.length srcs) v /\
     forall elem read cfgs out, Multi.expand elem read self = Ok (cfgs, out) ->
       List.length cfgs = List.length srcs /\
       Forall (fun rd => Source.timestamp_attribute (Read._source rd) = v) cfgs).
Proof.
  unfold Multi.new, Multi.broadcast.
  split_and!.
  - intros l -> Hl. cbn [bind]. by rewrite (proj2 (Nat.eqb_neq _ _) Hl).
  - intros l -> Hl Hid.
    assert (Hok : exists ids, match id with
                  | Multi.PNone => Ok (replicate (List.length srcs) None)
                  | Multi.PStr s => Ok (replicate (List.length srcs) (Some s))
                  | Multi.PList l0 =>
                      if Nat.eqb (List.length l0) (List.length srcs) then Ok l0
                      else Err (ParameterCountMismatch "id_label" (List.length l0)
                                  (List.length srcs))
                  end = Ok ids).
    { destruct id as [|s|l']; eauto. rewrite (proj2 (Nat.eqb_eq _ _) (Hid l' eq_refl)). eauto. }
    destruct Hok as [ids ->]. cbn [bind]. by rewrite (proj2 (Nat.eqb_neq _ _) Hl).
  - intros l -> Hl. destruct id as [|s|l'].
    1,2: cbn [bind]; rewrite (proj2 (Nat.eqb_neq _ _) Hl); eauto.
    destruct (Nat.eqb (List.length l') (List.length srcs)); cbn [bind]; [|eauto].
    rewrite (proj2 (Nat.eqb_neq _ _) Hl); eauto.
  - intros self v H Hv. apply Multi_new_ok in H as (Hsl & Hid & _).
    assert (Hv' : Multi.id_label self = replicate (List.length srcs) v).
    { destruct Hv as [[-> ->]|(s & -> & ->)]; cbn [Multi.broadcast] in Hid;
        by injection Hid. }
    split; [done|].
    intros elem read cfgs out Hx. apply expand_configs in Hx as (Hlen & Hc).
    rewrite Hsl in Hlen. split; [done|].
    apply Forall_lookup. intros j rd Hrd. destruct (Hc j rd Hrd) as [Hi _].
    rewrite Hv', lookup_replicate in Hi. by destruct Hi as [Hi _].
  - intros self v H Hv. apply Multi_new_ok in H as (Hsl & _ & Hts).
    assert (Hv' : Multi.timestamp_attribute self = replicate (List.length srcs) v).
    { destruct Hv as [[-> ->]|(s & -> & ->)]; cbn [Multi.broadcast] in Hts;
        by injection Hts. }
    split; [done|].
    intros elem read cfgs out Hx. apply expand_configs in Hx as (Hlen & Hc).
    rewrite Hsl in Hlen. split; [done|].
    apply Forall_lookup. intros j rd Hrd. destruct (Hc j rd Hrd) as [_ Hi].
    rewrite Hv', lookup_replicate in Hi. by destruct Hi as [Hi _].
Qed.

(** C1 on [PubsubMessage(None, {"k": "v"})] and [PubsubMessage(b"a", None)]:
    both are built, and encoding either raises. *)
Lemma C1_encode_valid_message_witness :
  (exists m, new_PubsubMessage None (Some {["k" := "v"]}) = Ok m /\
             _to_proto_str m = Err ProtoTypeError) /\
  (exists m, new_PubsubMessage (Some [x61]) None = Ok m /\
             _to_proto_str m = Err NotIterable).
Proof.
  split.
  - destruct (new_PubsubMessage None (Some {["k" := "v"]})) as [m|e] eqn:H;
      [|vm_compute in H; discriminate].
    exists m. split; [reflexivity|].
    exact (proj1 (C1_encode_valid_message _ _ m H) eq_refl).
  - destruct (new_PubsubMessage (Some [x61]) None) as [m|e] eqn:H;
      [|vm_compute in H; discriminate].
    exists m. split; [reflexivity|].
    exact (proj1 (proj2 (C1_encode_valid_message _ _ m H)) ltac:(discriminate) eq_refl).
Defined.

(** C7, counterexample: the two parameters are not checked independently.
    With one source, [id_label=[]] and [timestamp_attribute=[None, None]]
    both have the wrong length; the constructor reports [id_label]'s
    mismatch ([0] for [1]) and never the [timestamp_attribute] one ([2] for
    [1]). *)
Lemma C7_id_label_checked_first :
  Multi.new ["projects/abcdef/topics/t"] false (Multi.PList []) false
    (Multi.PList [None; None]) []
  = Err (ParameterCountMismatch "id_label" 0 1) /\
  Multi.new ["projects/abcdef/topics/t"] false (Multi.PList []) false
    (Multi.PList [None; None]) []
  <> Err (ParameterCountMismatch "timestamp_attribute" 2 1).
Proof. split; vm_compute; [reflexivity|discriminate]. Qed.

(** Witness of C6 on [ReadFromPubSub(topic="projects/abcdef/topics/t")]. *)
Lemma C6_payload_roundtrip_witness :
  exists r r', Read.new (Some "projects/abcdef/topics/t") None None false None = Ok r /\
    Read.from_runner_api_parameter (Read._pubsub_read_payload r) = Ok r' /\
    Read._pubsub_read_payload r' = Read._pubsub_read_payload r.
Proof.
  eexists. 
  assert (H : Read.new (Some "projects/abcdef/topics/t") None None false None
              = Ok {| Read.with_attributes := false;
                      Read._source := {| Source.full_topic := Some "projects/abcdef/topics/t";
                                         Source.full_subscription := None;
                                         Source.topic_name := Some "t";
                                         Source.subscription_name := None;
                                         Source.project := Some "abcdef";
                                         Source.id_label := None;
                                         Source.with_attributes := false;
                                         Source.timestamp_attribute := None |} |})
    by (vm_compute; reflexivity).
  destruct (C6_payload_roundtrip _ _ _ _ _ _ H) as (r' & Hr' & _ & _ & _ & _ & _ & _ & _ & _ & Hp).
  exists r'. split; [exact H|]. split; [exact Hr'|exact Hp].
Defined.

(** C2 on two sources, a topic and a subscription, each read giving the
    one element [1]: both output pairs carry the subscription, the last
    source; none carries the topic the first element was read from. *)
Lemma C2_context_last_source_witness :
  exists self cfgs out,
    Multi.new ["projects/abcdef/topics/a"; "projects/abcdef/subscriptions/b"]
      true Multi.PNone false Multi.PNone [] = Ok self /\
    Multi.expand nat (fun _ => [1]) self = Ok (cfgs, out) /\
    out = [Multi.WithContext nat "projects/abcdef/subscriptions/b" 1;
           Multi.WithContext nat "projects/abcdef/subscriptions/b" 1].
Proof.
  destruct (Multi.new ["projects/abcdef/topics/a"; "projects/abcdef/subscriptions/b"]
              true Multi.PNone false Multi.PNone []) as [self|e] eqn:Hs;
    [|vm_compute in Hs; discriminate].
  assert (Hwc : Multi.with_context self = true).
  { pose proof Hs as Hs'. vm_compute in Hs'. by injection Hs' as <-. }
  assert (Hsl : Multi.source_list self
                = ["projects/abcdef/topics/a"; "projects/abcdef/subscriptions/b"]).
  { pose proof Hs as Hs'. vm_compute in Hs'. by injection Hs' as <-. }
  destruct (Multi.expand nat (fun _ => [1]) self) as [[cfgs out]|e] eqn:He;
    [|pose proof Hs as Hs'; vm_compute in Hs'; injection Hs' as <-;
      vm_compute in He; discriminate].
  destruct (C2_context_last_source nat (fun _ => [1]) self cfgs out Hwc He)
    as (_ & Hlen & _ & Hout & _).
  exists self, cfgs, out. split_and!; [reflexivity|exact He|].
  rewrite Hout, Hsl. rewrite Hsl in Hlen. cbn in Hlen.
  destruct cfgs as [|c1 [|c2 [|]]]; try discriminate. reflexivity.
Defined.

(** * Further properties of the module *)

(** ** Strings, and the matcher on the resource-name patterns *)

Section Strings.

Lemma str_length_app (p t : string) :
  String.length (p ++ t)%string = String.length p + String.length t.
Proof. induction p as [|c p IH]; simpl; [done|by rewrite IH]. Qed.

Lemma substring_0_length (s : string) : substring 0 (String.length s) s = s.
Proof. induction s as [|c s IH]; simpl; [done|by rewrite IH]. Qed.

Lemma substring_app_l (p t : string) : substring 0 (String.length p) (p ++ t)%string = p.
Proof. induction p as [|c p IH]; simpl; [by destruct t|by rewrite IH]. Qed.

Lemma substring_app_r (p t : string) :
  substring (String.length p) (String.length (p ++ t)%string - String.length p) (p ++ t)%string
  = t.
Proof.
  induction p as [|c p IH]; simpl.
  - by rewrite Nat.sub_0_r, substring_0_length.
  - exact IH.
Qed.

Lemma substring_app_group (p t : string) :
  substring 0 (String.length (p ++ t)%string - String.length t) (p ++ t)%string = p.
Proof. rewrite str_length_app, Nat.add_sub. apply substring_app_l. Qed.

Lemma split_string (s : string) (m : nat) :
  m <= String.length s -> exists p t, s = (p ++ t)%string /\ String.length p = m.
Proof.
  revert m. induction s as [|c s IH]; intros m Hm.
  - exists "", "". simpl in *. split; [done|lia].
  - destruct m as [|m].
    + by exists "", (String c s).
    + simpl in Hm. destruct (IH m ltac:(lia)) as (p & t & -> & Hp).
      exists (String c p), t. simpl. split; [done|lia].
Qed.

Lemma strip_app (t s : string) : strip t (t ++ s)%string = Some s.
Proof. induction t as [|c t IH]; simpl; [done|]. by rewrite Ascii.eqb_refl. Qed.

Lemma strip_Some (t s r : string) : strip t s = Some r -> s = (t ++ r)%string.
Proof.
  revert s. induction t as [|c t IH]; intros s H; simpl in *.
  - by injection H as <-.
  - destruct s as [|d s]; [discriminate|].
    destruct (Ascii.eqb c d) eqn:E; [|discriminate].
    apply Ascii.eqb_eq in E as <-. by rewrite (IH s H).
Qed.

Lemma run_length_le (a : atom) (s : string) : run_length a s <= String.length s.
Proof.
  induction s as [|c s IH]; simpl; [lia|]. destruct (atom_ok a c); lia.
Qed.

Lemma run_length_app (a : atom) (p t : string) :
  all_ok a p = true -> run_length a (p ++ t)%string = String.length p + run_length a t.
Proof.
  induction p as [|c p IH]; simpl; [done|].
  intros H. apply andb_prop in H as [-> H]. by rewrite IH.
Qed.

Lemma run_length_split (a : atom) (p t : string) :
  run_length a (p ++ t)%string = String.length p ->
  all_ok a p = true /\
  (t = EmptyString \/ exists c t', t = String c t' /\ atom_ok a c = false).
Proof.
  induction p as [|c p IH]; simpl; intros H.
  - split; [done|]. destruct t as [|c t']; [by left|right].
    exists c, t'. split; [done|]. simpl in H. by destruct (atom_ok a c).
  - destruct (atom_ok a c); [|discriminate]. injection H as H.
    apply IH in H as [-> Ht]. by split.
Qed.

Lemma run_length_lt (a : atom) (p t : string) :
  String.length p < run_length a (p ++ t)%string ->
  exists c t', t = String c t' /\ atom_ok a c = true.
Proof.
  induction p as [|c p IH]; simpl; intros H.
  - destruct t as [|c t']; simpl in H; [lia|].
    exists c, t'. split; [done|]. destruct (atom_ok a c); [done|lia].
  - destruct (atom_ok a c); [|lia]. apply IH. lia.
Qed.

Lemma run_length_all_ok (a : atom) (p t : string) :
  String.length p <= run_length a (p ++ t)%string -> all_ok a p = true.
Proof.
  induction p as [|c p IH]; simpl; intros H; [done|].
  destruct (atom_ok a c); [|lia]. simpl. apply IH. lia.
Qed.

Lemma try_counts_Some (lo n : nat) (s : string) (caps : captures) (k : cont) (r : captures) :
  try_counts lo n s caps k = Some r ->
  exists m, lo <= m <= n /\ k (substring m (String.length s - m) s) caps = Some r.
Proof.
  induction n as [|n IH]; cbn [try_counts]; intros H.
  - destruct (Nat.ltb 0 lo) eqn:Hl; [discriminate|]. apply Nat.ltb_ge in Hl.
    destruct (k _ caps) eqn:Hk; [|discriminate]. injection H as <-.
    exists 0. split; [lia|done].
  - destruct (Nat.ltb (S n) lo) eqn:Hl; [discriminate|]. apply Nat.ltb_ge in Hl.
    destruct (k _ caps) eqn:Hk.
    + injection H as <-. exists (S n). split; [lia|done].
    + destruct (IH H) as (m & Hm & Hkm). exists m. split; [lia|done].
Qed.

Lemma try_counts_first (lo n : nat) (s : string) (caps : captures) (k : cont) (r : captures) :
  lo <= n -> k (substring n (String.length s - n) s) caps = Some r ->
  try_counts lo n s caps k = Some r.
Proof.
  intros Hl Hk. destruct n as [|n]; cbn [try_counts];
    (replace (Nat.ltb _ lo) with false by (symmetry; apply Nat.ltb_ge; lia));
    by rewrite Hk.
Qed.

Lemma try_counts_reach (lo m n : nat) (s : string) (caps : captures) (k : cont) :
  lo <= m <= n -> k (substring m (String.length s - m) s) caps <> None ->
  try_counts lo n s caps k <> None.
Proof.
  induction n as [|n IH]; intros Hm Hk; cbn [try_counts];
    (replace (Nat.ltb _ lo) with false by (symmetry; apply Nat.ltb_ge; lia)).
  - replace m with 0 in Hk by lia. destruct (k (substring 0 (String.length s - 0) s) caps) eqn:E; [intros ?; discriminate|congruence].
  - destruct (k (substring (S n) (String.length s - S n) s) caps) eqn:E; [intros ?; discriminate|].
    destruct (decide (m = S n)) as [->|Hne]; [by rewrite E in Hk|].
    apply IH; [lia|done].
Qed.

(** [projects/([^/]+)<mid>(.+)] with [mid] starting with a slash. *)
Lemma name_regex_match (mid m' s : string) (caps : captures) :
  mid = String "/" m' ->
  match_ (RCat (RLit "projects/")
           (RCat (RGroup (RRep NOT_SLASH 1 None))
             (RCat (RLit mid) (RGroup (RRep AAny 1 None))))) s = Some caps <->
  exists p n rest, s = ("projects/" ++ p ++ mid ++ n ++ rest)%string /\ caps = [p; n] /\
    p <> "" /\ all_ok NOT_SLASH p = true /\ n <> "" /\ all_ok AAny n = true /\
    (rest = "" \/ exists r, rest = String "010" r).
Proof.
  intros ->. unfold match_. cbn [run cap]. split.
  - intros H. destruct (strip "projects/" s) as [s1|] eqn:Es; [|discriminate].
    apply strip_Some in Es as ->.
    apply try_counts_Some in H as (m & Hm & H).
    destruct (split_string s1 m) as (p & t & -> & <-).
    { pose proof (run_length_le NOT_SLASH s1). lia. }
    rewrite substring_app_r, substring_app_group in H.
    destruct (strip (String "/" m') t) as [t1|] eqn:Et; [|discriminate].
    apply strip_Some in Et as ->.
    assert (Hrl : run_length NOT_SLASH (p ++ String "/" m' ++ t1)%string = String.length p).
    { destruct (decide (String.length p < run_length NOT_SLASH
                          (p ++ String "/" m' ++ t1)%string)) as [Hlt|]; [|lia].
      apply run_length_lt in Hlt as (c & t' & Ht & Hc). simpl in Ht.
      injection Ht as <- _. discriminate. }
    apply run_length_split in Hrl as [Hp _].
    destruct (run_length AAny t1) as [|N] eqn:EN; cbn [try_counts] in H; [discriminate|].
    replace (Nat.ltb (S N) 1) with false in H by (symmetry; apply Nat.ltb_ge; lia).
    destruct (split_string t1 (S N)) as (n & rest & -> & Hn).
    { rewrite <- EN. apply run_length_le. }
    rewrite <- Hn, substring_app_r, substring_app_group in H.
    injection H as <-. rewrite <- Hn in EN.
    apply run_length_split in EN as [Hnok Hrest].
    exists p, n, rest. split_and!; try done.
    + intros ->. simpl in Hm. lia.
    + intros ->. discriminate.
    + destruct Hrest as [->|(c & t' & -> & Hc)]; [by left|right].
      exists t'. cbn in Hc. apply negb_false_iff, Ascii.eqb_eq in Hc. by subst.
  - intros (p & n & rest & -> & -> & Hp & Hpok & Hn & Hnok & Hrest).
    rewrite strip_app, run_length_app by done. cbn [run_length].
    replace (atom_ok NOT_SLASH "/") with false by reflexivity. rewrite Nat.add_0_r.
    apply try_counts_first; [destruct p; simpl; [done|lia]|].
    rewrite substring_app_r, substring_app_group, strip_app.
    rewrite run_length_app by done.
    replace (run_length AAny rest) with 0
      by (destruct Hrest as [->|[r ->]]; reflexivity).
    rewrite Nat.add_0_r.
    apply try_counts_first; [destruct n; simpl; [done|lia]|].
    by rewrite substring_app_r, substring_app_group.
Qed.

End Strings.

(** ** What the parsers accept *)

(** [re.match(PROJECT_ID_REGEXP, project)] succeeds exactly when the
    project name STARTS with a lowercase letter, 4 to 61 characters of
    [[-a-z0-9:.]] and a lowercase letter or digit; whatever follows that
    prefix is not looked at. *)
Theorem project_id_check_prefix (project : string) :
  matches PROJECT_ID_REGEXP project = true <->
  exists c0 body c1 rest,
    project = String c0 (body ++ String c1 rest)%string /\
    atom_ok (ASet false [lower]) c0 = true /\
    all_ok (ASet false [CChar "-"; lower; digit; CChar ":"; CChar "."]) body = true /\
    4 <= String.length body <= 61 /\
    atom_ok (ASet false [lower; digit]) c1 = true.
Proof.
  unfold matches, match_, PROJECT_ID_REGEXP. cbn [run cap]. split.
  - intros H. destruct project as [|c0 p1]; [discriminate|].
    destruct (atom_ok (ASet false [lower]) c0) eqn:E0; [|discriminate].
    destruct (try_counts 4 _ p1 [] _) as [caps|] eqn:Ht; [|discriminate].
    apply try_counts_Some in Ht as (m & Hm & Hk).
    destruct (split_string p1 m) as (body & t & -> & <-).
    { pose proof (run_length_le (ASet false [CChar "-"; lower; digit; CChar ":"; CChar "."])
                    p1). lia. }
    rewrite substring_app_r in Hk.
    destruct t as [|c1 rest]; [discriminate|].
    destruct (atom_ok (ASet false [lower; digit]) c1) eqn:E1; [|discriminate].
    exists c0, body, c1, rest. split_and!; try done; try lia.
    apply (run_length_all_ok _ _ (String c1 rest)). lia.
  - intros (c0 & body & c1 & rest & -> & E0 & Hb & Hlen & E1). rewrite E0.
    destruct (try_counts 4 _ _ [] _) eqn:Ht; [done|exfalso]. revert Ht.
    apply (try_counts_reach 4 (String.length body)).
    + rewrite run_length_app by done. lia.
    + rewrite substring_app_r. cbn [atom_ok]. cbn in E1 |- *. rewrite E1.
      intros ?; discriminate.
Qed.

(** [parse_topic] returns [(project, topic_name)] exactly when the input
    is ["projects/" + project + "/topics/" + topic_name + rest] with a
    non-empty [project] free of ['/'], a non-empty [topic_name] free of
    newlines, [rest] empty or starting with a newline, and [project]
    passing the project-id check. *)
Theorem parse_topic_accepts (s project topic_name : string) :
  parse_topic s = Ok (project, topic_name) <->
  exists rest,
    s = ("projects/" ++ project ++ "/topics/" ++ topic_name ++ rest)%string /\
    project <> "" /\ all_ok NOT_SLASH project = true /\
    topic_name <> "" /\ all_ok AAny topic_name = true /\
    (rest = "" \/ exists r, rest = String "010" r) /\
    matches PROJECT_ID_REGEXP project = true.
Proof.
  unfold parse_topic. split.
  - destruct (match_ TOPIC_REGEXP s) as [caps|] eqn:E; [|discriminate].
    apply (name_regex_match "/topics/" "topics/") in E
      as (p & n & rest & -> & -> & Hp & Hpo & Hn & Hno & Hr); [|reflexivity].
    destruct (matches PROJECT_ID_REGEXP p) eqn:Em; [|discriminate].
    intros H. injection H as <- <-. exists rest. done.
  - intros (rest & -> & Hp & Hpo & Hn & Hno & Hr & Hm).
    rewrite (proj2 (name_regex_match "/topics/" "topics/" _ [project; topic_name] eq_refl))
      by (exists project, topic_name, rest; done).
    by rewrite Hm.
Qed.

(** The same for [parse_subscription] and ["/subscriptions/"]. *)
Theorem parse_subscription_accepts (s project subscription_name : string) :
  parse_subscription s = Ok (project, subscription_name) <->
  exists rest,
    s = ("projects/" ++ project ++ "/subscriptions/" ++ subscription_name ++ rest)%string /\
    project <> "" /\ all_ok NOT_SLASH project = true /\
    subscription_name <> "" /\ all_ok AAny subscription_name = true /\
    (rest = "" \/ exists r, rest = String "010" r) /\
    matches PROJECT_ID_REGEXP project = true.
Proof.
  unfold parse_subscription. split.
  - destruct (match_ SUBSCRIPTION_REGEXP s) as [caps|] eqn:E; [|discriminate].
    apply (name_regex_match "/subscriptions/" "subscriptions/") in E
      as (p & n & rest & -> & -> & Hp & Hpo & Hn & Hno & Hr); [|reflexivity].
    destruct (matches PROJECT_ID_REGEXP p) eqn:Em; [|discriminate].
    intros H. injection H as <- <-. exists rest. done.
  - intros (rest & -> & Hp & Hpo & Hn & Hno & Hr & Hm).
    rewrite (proj2 (name_regex_match "/subscriptions/" "subscriptions/" _
                      [project; subscription_name] eq_refl))
      by (exists project, subscription_name, rest; done).
    by rewrite Hm.
Qed.

(** ** Writing and reading messages *)

Section WriteRead.

Variable py_repr : pyval -> string.

Lemma msg_encode_decode (m : PubsubMessage) :
  is_Some (data m) -> is_Some (attributes m) ->
  exists b, _to_proto_str m = Ok b /\ _from_proto_str b = Ok m.
Proof.
  destruct m as [d a]. cbn [data attributes].
  intros [d' ->] [a' ->].
  eexists. split; [reflexivity|].
  unfold copy_attributes. rewrite copy_map_to_list.
  unfold _from_proto_str. rewrite ParseFromString_Serialize.
  cbn [pb_data pb_attributes]. rewrite copy_map_to_list. reflexivity.
Qed.

Lemma map_PyBytes_inj (l1 l2 : list bytes) : map PyBytes l1 = map PyBytes l2 -> l1 = l2.
Proof.
  revert l2; induction l1 as [|x l1 IH]; intros [|y l2] H; try discriminate; [done|].
  injection H as -> H. f_equal. by apply IH.
Qed.

Lemma read_expand_cons (b : bytes) (bs : list bytes) :
  ReadFromPubSub.expand true (b :: bs) =
  (m <-- _from_proto_str b ;; vs <-- ReadFromPubSub.expand true bs ;; Ok (PyMsg m :: vs)).
Proof.
  unfold ReadFromPubSub.expand. cbn [mapM].
  destruct (_from_proto_str b); reflexivity.
Qed.

(** Messages with [data] and [attributes] set survive the pipeline
    [WriteToPubSub(with_attributes=True)] then
    [ReadFromPubSub(with_attributes=True)]: the written payloads read back
    as the same messages, in the same order. *)
Theorem write_then_read (ms : list PubsubMessage) :
  Forall (fun m => is_Some (data m) /\ is_Some (attributes m)) ms ->
  exists bs, Write.expand py_repr true (map PyMsg ms) = Ok (map PyBytes bs) /\
             ReadFromPubSub.expand true bs = Ok (map PyMsg ms).
Proof.
  induction 1 as [|m ms [Hd Ha] _ (bs & Hw & Hr)].
  - exists []. split; reflexivity.
  - destruct (msg_encode_decode m Hd Ha) as (b & Hb & Hm).
    exists (b :: bs). unfold Write.expand in *. cbn [map mapM Write.to_proto_str].
    rewrite Hb. cbn [bind].
    destruct (mapM (Write.to_proto_str py_repr) (map PyMsg ms)) as [bs'|e];
      [|discriminate].
    cbn [bind] in Hw. injection Hw as Hw. apply map_PyBytes_inj in Hw. subst bs'.
    split; [reflexivity|].
    rewrite read_expand_cons, Hm. cbn [bind]. rewrite Hr. reflexivity.
Qed.

(** A message without [data] or without [attributes] cannot be written
    with attributes: its conversion raises (the protobuf setter rejects
    [None] data; [iteritems(None)] fails on missing attributes), and the
    whole write fails, whatever the other elements are. *)
Theorem write_rejects_missing_field (pcoll : list pyval) (m : PubsubMessage) :
  In (PyMsg m) pcoll -> data m = None \/ attributes m = None ->
  Write.to_proto_str py_repr (PyMsg m) =
    Err (if data m then NotIterable else ProtoTypeError) /\
  exists e, Write.expand py_repr true pcoll = Err e.
Proof.
  intros Hin Hmiss.
  assert (Hm : Write.to_proto_str py_repr (PyMsg m) =
               Err (if data m then NotIterable else ProtoTypeError)).
  { cbn [Write.to_proto_str]. unfold _to_proto_str.
    destruct m as [[d|] [a|]]; cbn in *; try reflexivity.
    destruct Hmiss; discriminate. }
  split; [exact Hm|].
  unfold Write.expand.
  enough (exists e, mapM (Write.to_proto_str py_repr) pcoll = Err e) as [e ->]
    by (eexists; reflexivity).
  induction pcoll as [|v pcoll IH]; [destruct Hin|].
  cbn [mapM]. destruct Hin as [->|Hin].
  - rewrite Hm. eexists; reflexivity.
  - destruct (IH Hin) as [e He].
    destruct (Write.to_proto_str py_repr v); cbn [bind]; [rewrite He|]; eexists; reflexivity.
Qed.

End WriteRead.

(** ** [WriteToPubSub] and its runner-API payload *)

(** Rebuilding a [WriteToPubSub] from its [PubSubWritePayload] gives back
    the topic, the [with_attributes] flag and the parsed project and topic
    name; [id_label] and [timestamp_attribute] come back as strings ([None]
    is read back as [""]), and the rebuilt transform has the same payload. *)
Theorem WriteToPubSub_payload_roundtrip (topic : string) (wa : bool)
    (id ts : option string) (w : WriteToPubSub.t) :
  WriteToPubSub.new topic wa id ts = Ok w ->
  exists w',
    WriteToPubSub.from_runner_api_parameter (WriteToPubSub._pubsub_write_payload w) = Ok w' /\
    WriteToPubSub.with_attributes w' = wa /\
    WriteToPubSub.id_label w' = Some (pb_string id) /\
    WriteToPubSub.timestamp_attribute w' = Some (pb_string ts) /\
    WriteToPubSub._sink w' =
      {| Sink.full_topic := topic; Sink.id_label := Some (pb_string id);
         Sink.with_attributes := wa; Sink.timestamp_attribute := Some (pb_string ts);
         Sink.project := Sink.project (WriteToPubSub._sink w);
         Sink.topic_name := Sink.topic_name (WriteToPubSub._sink w) |} /\
    WriteToPubSub._pubsub_write_payload w' = WriteToPubSub._pubsub_write_payload w.
Proof.
  unfold WriteToPubSub.new, Sink.new, bind. intros H.
  destruct (parse_topic topic) as [[p n]|e] eqn:Hp; [|discriminate].
  injection H as <-.
  unfold WriteToPubSub.from_runner_api_parameter, WriteToPubSub._pubsub_write_payload,
    WriteToPubSub.new, Sink.new, bind.
  cbn [WriteToPubSub._sink Sink.full_topic Sink.id_label Sink.timestamp_attribute
       WriteToPubSub.with_attributes wl_topic wl_with_attributes wl_id_attribute
       wl_timestamp_attribute].
  rewrite Hp. eexists. split; [reflexivity|]. done.
Qed.

(** ** [MultipleReadFromPubSub] *)

Lemma split_on_no_slash (p t : string) :
  all_ok NOT_SLASH p = true ->
  split_on "/" (p ++ String "/" t)%string = p :: split_on "/" t.
Proof.
  induction p as [|c p IH]; intros H; [reflexivity|].
  cbn [all_ok] in H. apply andb_prop in H as [Hc Hp].
  assert (E : Ascii.eqb "/" c = false).
  { destruct (Ascii.eqb "/" c) eqn:E; [|done].
    apply Ascii.eqb_eq in E. subst c. discriminate Hc. }
  change (String c p ++ String "/" t)%string with (String c (p ++ String "/" t)%string).
  cbn [split_on]. rewrite E, IH by done. reflexivity.
Qed.

Lemma split_source (kind p n : string) :
  all_ok NOT_SLASH p = true -> all_ok NOT_SLASH kind = true ->
  split_on "/" ("projects/" ++ p ++ "/" ++ kind ++ "/" ++ n)%string
  = "projects" :: p :: kind :: split_on "/" n.
Proof.
  intros Hp Hk.
  transitivity (split_on "/"
    ("projects" ++ String "/" (p ++ String "/" (kind ++ String "/" n)))%string);
    [reflexivity|].
  rewrite !split_on_no_slash by done. reflexivity.
Qed.

Lemma check_sources_Forall (srcs : list string) :
  Multi.check_sources srcs = Ok tt <->
  Forall (fun s => matches TOPIC_REGEXP s || matches SUBSCRIPTION_REGEXP s = true) srcs.
Proof.
  induction srcs as [|s srcs IH]; cbn [Multi.check_sources]; [split; done|].
  rewrite Forall_cons. destruct (matches TOPIC_REGEXP s || matches SUBSCRIPTION_REGEXP s);
    [rewrite IH; naive_solver|split; [discriminate|intros [? _]; discriminate]].
Qed.

(** A source accepted by [MultipleReadFromPubSub.__init__]. *)
Lemma source_shape (s : string) :
  matches TOPIC_REGEXP s || matches SUBSCRIPTION_REGEXP s = true ->
  exists kind p n rest,
    s = ("projects/" ++ p ++ "/" ++ kind ++ "/" ++ n ++ rest)%string /\
    ((kind = "topics" /\ match_ TOPIC_REGEXP s = Some [p; n]) \/
     (kind = "subscriptions" /\ matches TOPIC_REGEXP s = false /\
      match_ SUBSCRIPTION_REGEXP s = Some [p; n])) /\
    p <> "" /\ all_ok NOT_SLASH p = true /\ n <> "" /\ all_ok AAny n = true /\
    (rest = "" \/ exists r, rest = String "010" r).
Proof.
  unfold matches. destruct (match_ TOPIC_REGEXP s) as [caps|] eqn:Et.
  - intros _. pose proof Et as Et'.
    apply (name_regex_match "/topics/" "topics/") in Et
      as (p & n & rest & -> & -> & Hp & Hpo & Hn & Hno & Hr); [|reflexivity].
    exists "topics"%string, p, n, rest. split_and!; try done. by left.
  - cbn [orb]. destruct (match_ SUBSCRIPTION_REGEXP s) as [caps|] eqn:Es; [|discriminate].
    intros _. pose proof Es as Es'.
    apply (name_regex_match "/subscriptions/" "subscriptions/") in Es
      as (p & n & rest & -> & -> & Hp & Hpo & Hn & Hno & Hr); [|reflexivity].
    exists "subscriptions"%string, p, n, rest. split_and!; try done. right.
    split_and!; try done.
Qed.

Lemma shape_split (kind p n rest : string) :
  all_ok NOT_SLASH p = true -> (kind = "topics" \/ kind = "subscriptions") ->
  split_on "/" ("projects/" ++ p ++ "/" ++ kind ++ "/" ++ n ++ rest)%string
  = "projects" :: p :: kind :: split_on "/" (n ++ rest)%string.
Proof.
  intros Hp Hk. apply split_source; [done|]. by destruct Hk as [->| ->].
Qed.

Lemma Read_new_topic_err (src p n : string) (idl tsa : option string) (wa : bool)
    (e : error) :
  String.eqb src "" = false -> match_ TOPIC_REGEXP src = Some [p; n] ->
  Read.new (Some src) None idl wa tsa = Err e ->
  e = InvalidProjectId p /\ matches PROJECT_ID_REGEXP p = false.
Proof.
  intros Hne Hm. unfold Read.new, Source.new. cbn [truthy]. rewrite Hne.
  cbn [negb orb andb bind]. unfold parse_topic. rewrite Hm.
  destruct (matches PROJECT_ID_REGEXP p); cbn [bind]; intros H; [discriminate|].
  by injection H as <-.
Qed.

Lemma Read_new_subscription_err (src p n : string) (idl tsa : option string) (wa : bool)
    (e : error) :
  String.eqb src "" = false -> match_ SUBSCRIPTION_REGEXP src = Some [p; n] ->
  Read.new None (Some src) idl wa tsa = Err e ->
  e = InvalidProjectId p /\ matches PROJECT_ID_REGEXP p = false.
Proof.
  intros Hne Hm. unfold Read.new, Source.new. cbn [truthy]. rewrite Hne.
  cbn [negb orb andb bind]. unfold parse_subscription. rewrite Hm.
  destruct (matches PROJECT_ID_REGEXP p); cbn [bind]; intros H; [discriminate|].
  by injection H as <-.
Qed.

Lemma apply_label_Err (l : string) (ls : list string) (e : error) :
  Multi.apply_label l ls = Err e -> e = DuplicateLabel l.
Proof.
  unfold Multi.apply_label. destruct (existsb (String.eqb l) ls); [|discriminate].
  by intros [= <-].
Qed.

Lemma broadcast_length (name : string) (p : Multi.param) (n : nat)
    (l : list (option string)) :
  Multi.broadcast name p n = Ok l -> length l = n.
Proof.
  destruct p as [|s|l']; cbn [Multi.broadcast]; intros H.
  - injection H as <-. apply length_replicate.
  - injection H as <-. apply length_replicate.
  - destruct (Nat.eqb (length l') n) eqn:E; [|discriminate].
    injection H as <-. by apply Nat.eqb_eq.
Qed.

Lemma Multi_new_inv (srcs : list string) (wc wa : bool) (id ts : Multi.param)
    (kw : list (string * string)) (self : Multi.t) :
  Multi.new srcs wc id wa ts kw = Ok self ->
  Multi.source_list self = srcs /\ Multi.with_context self = wc /\
  Multi.with_attributes self = wa /\ Multi._kwargs self = kw /\
  length (Multi.id_label self) = length srcs /\
  length (Multi.timestamp_attribute self) = length srcs /\
  Multi.check_sources srcs = Ok tt /\
  Multi.has_key "topic" kw = false /\ Multi.has_key "subscription" kw = false.
Proof.
  unfold Multi.new, bind. intros H.
  destruct (Multi.broadcast "id_label" id _) as [ids|e] eqn:E1; [|discriminate].
  destruct (Multi.broadcast "timestamp_attribute" ts _) as [tss|e] eqn:E2; [|discriminate].
  destruct (Multi.check_sources srcs) as [[]|e] eqn:E3; [|discriminate].
  destruct (Multi.has_key "topic" kw) eqn:E4; [discriminate|].
  destruct (Multi.has_key "subscription" kw) eqn:E5; [discriminate|].
  injection H as <-. cbn.
  apply broadcast_length in E1, E2. done.
Qed.

Lemma mapM_Ok_In {A B} (f : A -> result B) (l : list A) (ls : list B) (x : A) :
  mapM f l = Ok ls -> In x l -> exists y, f x = Ok y /\ In y ls.
Proof.
  revert ls. induction l as [|a l IH]; intros ls H Hin; [destruct Hin|].
  cbn [mapM] in H. destruct (f a) as [y|e] eqn:Ea; cbn [bind] in H; [|discriminate].
  destruct (mapM f l) as [ys|e]; cbn [bind] in H; [|discriminate].
  injection H as <-. destruct Hin as [<-|Hin].
  - exists y. split; [done|by left].
  - destruct (IH ys eq_refl Hin) as (y' & Hy' & Hin'). exists y'. split; [done|by right].
Qed.

Lemma mapM_NoDup {A B} (f : A -> result B) (l : list A) (ls : list B) :
  mapM f l = Ok ls -> NoDup ls -> NoDup l.
Proof.
  revert ls. induction l as [|a l IH]; intros ls H Hnd; [constructor|].
  cbn [mapM] in H. destruct (f a) as [y|e] eqn:Ea; cbn [bind] in H; [|discriminate].
  destruct (mapM f l) as [ys|e] eqn:El; cbn [bind] in H; [|discriminate].
  injection H as <-. apply NoDup_cons in Hnd as [Hy Hnd].
  constructor; [|by eapply IH].
  intros Hin%list_elem_of_In.
  destruct (mapM_Ok_In f l ys a El Hin) as (y' & Hy' & Hin').
  rewrite Ea in Hy'. injection Hy' as <-. apply Hy. by apply list_elem_of_In.
Qed.

Section MultiExtras.

Variable elem : Type.
Variable read : Read.t -> list elem.

Lemma index_1 {A} (a b c : A) (l : list A) : Multi.index (a :: b :: c :: l) 1 = Ok b.
Proof. reflexivity. Qed.

Lemma index_2 {A} (a b c : A) (l : list A) : Multi.index (a :: b :: c :: l) 2 = Ok c.
Proof. reflexivity. Qed.

Lemma expand_loop_errors (self : Multi.t) (srcs : list string) :
  forall i labels e,
  Forall shaped srcs ->
  i + length srcs <= length (Multi.id_label self) ->
  i + length srcs <= length (Multi.timestamp_attribute self) ->
  Multi.expand_loop elem read self i srcs labels = Err e ->
  e = UnexpectedKeyword \/
  (exists src p, In src srcs /\ split_on "/" src !! 1 = Some p /\
     matches PROJECT_ID_REGEXP p = false /\ e = InvalidProjectId p) \/
  (exists l, e = DuplicateLabel l).
Proof.
  induction srcs as [|src srcs IH]; intros i labels e Hall Hid Hts H; [discriminate|].
  apply Forall_cons in Hall as [Hsrc Hall].
  cbn [length] in Hid, Hts.
  destruct (lookup_lt_is_Some_2 (Multi.id_label self) i) as [idl Hidl]; [lia|].
  destruct (lookup_lt_is_Some_2 (Multi.timestamp_attribute self) i) as [tsa Htsa]; [lia|].
  destruct (source_shape src Hsrc) as (kind & p & n & rest & Hs & Hkind & Hp & Hpo & _).
  assert (Hne : String.eqb src "" = false) by (rewrite Hs; reflexivity).
  assert (Hsplit : split_on "/" src = "projects" :: p :: kind :: split_on "/" (n ++ rest)%string).
  { rewrite Hs. apply shape_split; [done|]. destruct Hkind as [[-> _]|[-> _]]; auto. }
  cbn [Multi.expand_loop] in H. cbv zeta in H.
  unfold Multi.index at 1 2 in H. rewrite Hidl, Htsa in H. cbn [bind] in H.
  rewrite Hsplit, index_1, index_2 in H. cbn [bind] in H.
  destruct (Multi._kwargs self) as [|kv kvs]; cbn [bind] in H;
    [|injection H as <-; by left].
  assert (Hrd : forall rd, Ok rd =
            (if String.eqb kind "topics"
             then Read.new (Some src) None idl (Multi.with_attributes self) tsa
             else Read.new None (Some src) idl (Multi.with_attributes self) tsa) ->
            e = UnexpectedKeyword \/
            (exists src' p', In src' (src :: srcs) /\ split_on "/" src' !! 1 = Some p' /\
               matches PROJECT_ID_REGEXP p' = false /\ e = InvalidProjectId p') \/
            (exists l, e = DuplicateLabel l)).
  { intros rd Hr. rewrite <- Hr in H. cbn [bind] in H.
    destruct (Multi.apply_label _ labels) as [l1|e'] eqn:El; cbn [bind] in H;
      [|injection H as <-; apply apply_label_Err in El; subst; right; right; eexists; reflexivity].
    destruct (Multi.with_context self); cbn [bind] in H.
    - destruct (Multi.apply_label _ l1) as [l2|e'] eqn:El2; cbn [bind] in H;
        [|injection H as <-; apply apply_label_Err in El2; subst; right; right;
          eexists; reflexivity].
      cbn [snd] in H.
      destruct (Multi.expand_loop elem read self (S i) srcs l2) as [res|e'] eqn:Eloop;
        cbn [bind] in H; [discriminate|]. injection H as <-.
      destruct (IH (S i) l2 e' Hall ltac:(lia) ltac:(lia) Eloop)
        as [He|[(src' & p' & Hin & Hrest)|Hl]]; [by left| |by right; right].
      right; left. exists src', p'. split; [by right|done].
    - cbn [snd] in H.
      destruct (Multi.expand_loop elem read self (S i) srcs l1) as [res|e'] eqn:Eloop;
        cbn [bind] in H; [discriminate|]. injection H as <-.
      destruct (IH (S i) l1 e' Hall ltac:(lia) ltac:(lia) Eloop)
        as [He|[(src' & p' & Hin & Hrest)|Hl]]; [by left| |by right; right].
      right; left. exists src', p'. split; [by right|done]. }
  destruct (if String.eqb kind "topics"
            then Read.new (Some src) None idl (Multi.with_attributes self) tsa
            else Read.new None (Some src) idl (Multi.with_attributes self) tsa)
    as [rd|e'] eqn:Er; [by apply (Hrd rd)|].
  assert (Hpid : e' = InvalidProjectId p /\ matches PROJECT_ID_REGEXP p = false).
  { destruct Hkind as [[-> Hm]|[-> [Hm' Hm]]].
    - rewrite String.eqb_refl in Er. exact (Read_new_topic_err src p n idl tsa _ e' Hne Hm Er).
    - change (String.eqb "subscriptions" "topics") with false in Er.
      exact (Read_new_subscription_err src p n idl tsa _ e' Hne Hm Er). }
  destruct Hpid as [-> Hpid].
  cbn [bind] in H. injection H as <-. right; left. exists src, p.
  split_and!; [by left|by rewrite Hsplit|done|done].
Qed.

(** [MultipleReadFromPubSub.__init__] succeeds exactly when [id_label]
    and [timestamp_attribute] pass their length checks, every source is
    ["projects/<p>/topics/<n>"] or ["projects/<p>/subscriptions/<n>"]
    (with [<p>] non-empty and free of ['/'], [<n>] non-empty and free of
    newlines, possibly followed by a newline and anything), and the extra
    keyword arguments name neither [topic] nor [subscription]. The
    project-id check is not made here: [<p>] need not pass it. *)
Theorem MultipleReadFromPubSub_new_sources (srcs : list string) (wc wa : bool)
    (id ts : Multi.param) (kw : list (string * string)) :
  (exists self, Multi.new srcs wc id wa ts kw = Ok self) <->
  (exists ids, Multi.broadcast "id_label" id (List.length srcs) = Ok ids) /\
  (exists tss, Multi.broadcast "timestamp_attribute" ts (List.length srcs) = Ok tss) /\
  Forall (fun s => exists kind p n rest,
    (kind = "topics" \/ kind = "subscriptions") /\
    s = ("projects/" ++ p ++ "/" ++ kind ++ "/" ++ n ++ rest)%string /\
    p <> "" /\ all_ok NOT_SLASH p = true /\ n <> "" /\ all_ok AAny n = true /\
    (rest = "" \/ exists r, rest = String "010" r)) srcs /\
  Multi.has_key "topic" kw = false /\ Multi.has_key "subscription" kw = false.
Proof.
  split.
  - intros [self Hnew].
    destruct (Multi_new_inv _ _ _ _ _ _ _ Hnew) as (_ & _ & _ & _ & _ & _ & Hchk & Ht & Hs).
    destruct (Multi_new_ok _ _ _ _ _ _ _ Hnew) as (_ & Hid & Hts).
    apply check_sources_Forall in Hchk.
    split_and!; [by eexists|by eexists| |done|done].
    eapply Forall_impl; [exact Hchk|]. intros s Hsrc.
    destruct (source_shape s Hsrc) as (kind & p & n & rest & Heq & Hk & Hrest).
    exists kind, p, n, rest. split; [|done].
    by destruct Hk as [[-> _]|[-> _]]; [left|right].
  - intros ([ids Hid] & [tss Hts] & Hsh & Ht & Hs).
    unfold Multi.new. rewrite Hid, Hts. cbn [bind].
    replace (Multi.check_sources srcs) with (Ok tt : result unit).
    2: { symmetry. apply check_sources_Forall.
         eapply Forall_impl; [exact Hsh|].
         intros src (kind & p & n & rest & [-> | ->] & -> & Hp & Hpo & Hn & Hno & Hr).
         - unfold matches.
           rewrite (proj2 (name_regex_match "/topics/" "topics/" _ [p; n] eq_refl))
             by (exists p, n, rest; done).
           reflexivity.
         - unfold matches.
           rewrite (proj2 (name_regex_match "/subscriptions/" "subscriptions/" _
                             [p; n] eq_refl))
             by (exists p, n, rest; done).
           apply orb_true_r. }
    cbn [bind]. rewrite Ht, Hs. by eexists.
Qed.

Lemma split_on_nonempty (c : ascii) (s : string) : split_on c s <> [].
Proof.
  induction s as [|d s IH]; cbn [split_on]; [discriminate|].
  destruct (Ascii.eqb c d); [discriminate|]. by destruct (split_on c s).
Qed.

(** The read step name [MultipleReadFromPubSub.expand] gives a source
    ["projects/<p>/<kind>/<name>"] is
    ['PubSub <kind>/project:<p>/Read <last>'], where [<last>] is what
    follows the last ['/'] of [<name>]. *)
Theorem read_step_name_source (kind p n : string) :
  all_ok NOT_SLASH p = true -> kind = "topics" \/ kind = "subscriptions" ->
  read_step_name ("projects/" ++ p ++ "/" ++ kind ++ "/" ++ n)%string
  = Ok (("PubSub " ++ kind ++ "/project:" ++ p) ++ "/Read " ++
        List.last (split_on "/" n) "")%string.
Proof.
  intros Hp Hk. unfold read_step_name. cbv zeta.
  assert (Hk' : all_ok NOT_SLASH kind = true) by (by destruct Hk as [-> | ->]).
  rewrite (split_source kind p n Hp Hk'), index_1, index_2. cbn [bind].
  pose proof (split_on_nonempty "/" n) as Hne.
  destruct (split_on "/" n) as [|x l]; [done|]. reflexivity.
Qed.

Lemma mapM_lookup {A B} (f : A -> result B) (l : list A) (ls : list B) (i : nat) (x : A) :
  mapM f l = Ok ls -> l !! i = Some x -> exists y, f x = Ok y /\ ls !! i = Some y.
Proof.
  revert ls i. induction l as [|a l IH]; intros ls i H Hi; [done|].
  cbn [mapM] in H. destruct (f a) as [y|e] eqn:Ea; cbn [bind] in H; [|discriminate].
  destruct (mapM f l) as [ys|e] eqn:El; cbn [bind] in H; [|discriminate].
  injection H as <-. destruct i as [|i]; cbn in Hi |- *.
  - injection Hi as <-. by exists y.
  - by apply IH.
Qed.

Lemma str_app_assoc (a b c : string) : (a ++ b ++ c)%string = ((a ++ b) ++ c)%string.
Proof. induction a as [|x a IH]; [reflexivity|]. exact (f_equal (String x) IH). Qed.

Lemma str_app_cancel_l (a b c : string) : (a ++ b)%string = (a ++ c)%string -> b = c.
Proof.
  induction a as [|x a IH]; [done|]. intros H. apply IH.
  change (String x (a ++ b)%string = String x (a ++ c)%string) in H. by injection H.
Qed.

Lemma not_slash_eqb (d : ascii) : atom_ok NOT_SLASH d = true -> Ascii.eqb "/" d = false.
Proof.
  intros Hd. destruct (Ascii.eqb "/" d) eqn:E; [|done].
  apply Ascii.eqb_eq in E. subst d. discriminate Hd.
Qed.

Lemma eqb_not_slash (d : ascii) : Ascii.eqb "/" d = false -> atom_ok NOT_SLASH d = true.
Proof.
  intros E. cbn [atom_ok NOT_SLASH existsb item_ok].
  destruct (Ascii.eqb d "/") eqn:E'; [|reflexivity].
  apply Ascii.eqb_eq in E'. subst d. discriminate E.
Qed.

Lemma split_on_all_ok (s : string) : all_ok NOT_SLASH s = true -> split_on "/" s = [s].
Proof.
  induction s as [|d s IH]; intros H; [reflexivity|].
  cbn [all_ok] in H. apply andb_prop in H as [Hd Hs].
  cbn [split_on]. rewrite (not_slash_eqb d Hd), IH by done. reflexivity.
Qed.

Lemma split_on_elems (s : string) : Forall (fun x => all_ok NOT_SLASH x = true) (split_on "/" s).
Proof.
  induction s as [|d s IH]; cbn [split_on]; [by repeat constructor|].
  destruct (Ascii.eqb "/" d) eqn:E; [by constructor|].
  pose proof (eqb_not_slash d E) as Hd.
  destruct (split_on "/" s) as [|x xs].
  - constructor; [|constructor]. cbn [all_ok]. by rewrite Hd.
  - apply Forall_cons in IH as [Hx Hxs]. constructor; [|done].
    cbn [all_ok]. by rewrite Hd, Hx.
Qed.

Lemma last_In {A} (l : list A) (d : A) : l <> [] -> In (List.last l d) l.
Proof.
  induction l as [|a l IH]; [done|]. intros _.
  destruct l as [|b l]; [by left|]. right. by apply IH.
Qed.

Lemma name_split (T P Y N : string) :
  all_ok NOT_SLASH T = true -> all_ok NOT_SLASH P = true ->
  all_ok NOT_SLASH (Y ++ N)%string = true ->
  split_on "/" (("PubSub " ++ T ++ "/project:" ++ P) ++ String "/" (Y ++ N))%string
  = ["PubSub " ++ T; "project:" ++ P; Y ++ N]%string.
Proof.
  intros HT HP HN.
  transitivity (split_on "/" (("PubSub " ++ T) ++
                  String "/" (("project:" ++ P) ++ String "/" (Y ++ N))))%string.
  { f_equal. rewrite <- !str_app_assoc. reflexivity. }
  rewrite split_on_no_slash, split_on_no_slash, split_on_all_ok by done. reflexivity.
Qed.

Lemma all_ok_app (a : atom) (p t : string) :
  all_ok a (p ++ t)%string = all_ok a p && all_ok a t.
Proof.
  induction p as [|c p IH]; [reflexivity|].
  change (atom_ok a c && all_ok a (p ++ t)%string = (atom_ok a c && all_ok a p) && all_ok a t).
  rewrite IH. apply andb_assoc.
Qed.

(** The two step names of a source accepted by the constructor. *)
Lemma step_names_shape (s : string) :
  shaped s ->
  exists T P N, all_ok NOT_SLASH T = true /\ all_ok NOT_SLASH P = true /\
    all_ok NOT_SLASH N = true /\
    read_step_name s = Ok (("PubSub " ++ T ++ "/project:" ++ P) ++ "/Read " ++ N)%string /\
    ctx_step_name s = Ok (("PubSub " ++ T ++ "/project:" ++ P) ++ "/Add Context " ++ N)%string.
Proof.
  intros Hs.
  destruct (source_shape s Hs) as (kind & p & n & rest & Heq & Hkind & Hp & Hpo & _).
  assert (Hk : kind = "topics" \/ kind = "subscriptions")
    by (destruct Hkind as [[-> _]|[-> _]]; auto).
  assert (Hsplit : split_on "/" s = "projects" :: p :: kind :: split_on "/" (n ++ rest)%string)
    by (rewrite Heq; by apply shape_split).
  pose proof (split_on_nonempty "/" (n ++ rest)%string) as Hne.
  pose proof (split_on_elems (n ++ rest)%string) as Hel.
  exists kind, p, (List.last (split_on "/" (n ++ rest)%string) "").
  split_and!.
  - by destruct Hk as [-> | ->].
  - done.
  - rewrite Forall_forall in Hel. apply Hel, list_elem_of_In, last_In, Hne.
  - unfold read_step_name. cbv zeta. rewrite Hsplit, index_1, index_2. cbn [bind].
    destruct (split_on "/" (n ++ rest)%string); [done|reflexivity].
  - unfold ctx_step_name. cbv zeta. rewrite Hsplit, index_1, index_2. cbn [bind].
    destruct (split_on "/" (n ++ rest)%string); [done|reflexivity].
Qed.

(** A read step name is never a context step name. *)
Lemma read_ctx_distinct (s1 s2 l : string) :
  shaped s1 -> shaped s2 -> read_step_name s1 = Ok l -> ctx_step_name s2 = Ok l -> False.
Proof.
  intros H1 H2 R C.
  destruct (step_names_shape s1 H1) as (T1 & P1 & N1 & HT1 & HP1 & HN1 & R1 & _).
  destruct (step_names_shape s2 H2) as (T2 & P2 & N2 & HT2 & HP2 & HN2 & _ & C2).
  rewrite R1 in R. rewrite C2 in C. injection R as R. injection C as C.
  assert (S1 := name_split T1 P1 "Read " N1 HT1 HP1 ltac:(by rewrite all_ok_app, HN1)).
  assert (S2 := name_split T2 P2 "Add Context " N2 HT2 HP2
                  ltac:(by rewrite all_ok_app, HN2)).
  change (String "/" ("Read " ++ N1)%string) with ("/Read " ++ N1)%string in S1.
  change (String "/" ("Add Context " ++ N2)%string) with ("/Add Context " ++ N2)%string in S2.
  rewrite R in S1. rewrite C in S2. rewrite S1 in S2. discriminate S2.
Qed.

(** Equal context step names come from equal read step names. *)
Lemma ctx_step_name_inj (s1 s2 l : string) :
  shaped s1 -> shaped s2 -> ctx_step_name s1 = Ok l -> ctx_step_name s2 = Ok l ->
  read_step_name s1 = read_step_name s2.
Proof.
  intros H1 H2 C1' C2'.
  destruct (step_names_shape s1 H1) as (T1 & P1 & N1 & HT1 & HP1 & HN1 & R1 & C1).
  destruct (step_names_shape s2 H2) as (T2 & P2 & N2 & HT2 & HP2 & HN2 & R2 & C2).
  rewrite C1 in C1'. rewrite C2 in C2'. injection C1' as E1. injection C2' as E2.
  assert (S1 := name_split T1 P1 "Add Context " N1 HT1 HP1
                  ltac:(by rewrite all_ok_app, HN1)).
  assert (S2 := name_split T2 P2 "Add Context " N2 HT2 HP2
                  ltac:(by rewrite all_ok_app, HN2)).
  change (String "/" ("Add Context " ++ N1)%string) with ("/Add Context " ++ N1)%string in S1.
  change (String "/" ("Add Context " ++ N2)%string) with ("/Add Context " ++ N2)%string in S2.
  rewrite E1 in S1. rewrite E2 in S2. rewrite S1 in S2.
  injection S2 as ET EP EN.
  apply str_app_cancel_l in ET, EP, EN. subst. by rewrite R1, R2.
Qed.

Lemma existsb_eqb_false (l : string) (ls : list string) :
  l ∉ ls -> existsb (String.eqb l) ls = false.
Proof.
  intros Hl. destruct (existsb (String.eqb l) ls) eqn:E; [|done].
  apply existsb_exists in E as (x & Hin & Hx). apply String.eqb_eq in Hx. subst x.
  exfalso. apply Hl. by apply list_elem_of_In.
Qed.

Lemma expand_loop_kwargs (self : Multi.t) (i : nat) (src : string) (srcs labels : list string) :
  Multi._kwargs self <> [] -> shaped src ->
  i < length (Multi.id_label self) -> i < length (Multi.timestamp_attribute self) ->
  Multi.expand_loop elem read self i (src :: srcs) labels = Err UnexpectedKeyword.
Proof.
  intros Hkw Hsrc Hid Hts.
  destruct (lookup_lt_is_Some_2 (Multi.id_label self) i) as [idl Hidl]; [lia|].
  destruct (lookup_lt_is_Some_2 (Multi.timestamp_attribute self) i) as [tsa Htsa]; [lia|].
  destruct (source_shape src Hsrc) as (kind & p & n & rest & Hs & Hkind & Hp & Hpo & _).
  assert (Hsplit : split_on "/" src = "projects" :: p :: kind :: split_on "/" (n ++ rest)%string).
  { rewrite Hs. apply shape_split; [done|]. destruct Hkind as [[-> _]|[-> _]]; auto. }
  cbn [Multi.expand_loop]. cbv zeta.
  unfold Multi.index at 1 2. rewrite Hidl, Htsa. cbn [bind].
  rewrite Hsplit, index_1, index_2. cbn [bind].
  by destruct (Multi._kwargs self).
Qed.

Lemma expand_loop_labels (self : Multi.t) (srcs : list string) :
  forall i labels res,
  Multi.expand_loop elem read self i srcs labels = Ok res ->
  exists ls, mapM read_step_name srcs = Ok ls /\ NoDup ls /\ Forall (fun l => l ∉ labels) ls.
Proof.
  induction srcs as [|src srcs IH]; intros i labels res H.
  { exists []. split_and!; [reflexivity|constructor|constructor]. }
  cbn [Multi.expand_loop] in H. cbv zeta in H.
  destruct (Multi.index (Multi.id_label self) i) as [idl|e]; cbn [bind] in H; [|discriminate].
  destruct (Multi.index (Multi.timestamp_attribute self) i) as [tsa|e];
    cbn [bind] in H; [|discriminate].
  destruct (Multi.index (split_on "/" src) 1) as [sp|e] eqn:E1; cbn [bind] in H; [|discriminate].
  destruct (Multi.index (split_on "/" src) 2) as [sty|e] eqn:E2; cbn [bind] in H; [|discriminate].
  match type of H with bind ?x _ = _ =>
    destruct x as [rd|e]; cbn [bind] in H; [|discriminate] end.
  destruct (Multi.apply_label _ labels) as [l1|e] eqn:El; cbn [bind] in H; [|discriminate].
  match type of El with Multi.apply_label ?l _ = _ => set (lbl := l) in * end.
  assert (Hrs : read_step_name src = Ok lbl).
  { unfold read_step_name. rewrite E1, E2. reflexivity. }
  unfold Multi.apply_label in El.
  destruct (existsb (String.eqb lbl) labels) eqn:Ex; [discriminate|]. injection El as <-.
  assert (Hnot : lbl ∉ labels).
  { intros Hin%list_elem_of_In.
    assert (existsb (String.eqb lbl) labels = true) as Ht; [|congruence].
    apply existsb_exists. exists lbl. split; [done|apply String.eqb_refl]. }
  match type of H with bind ?x _ = _ =>
    destruct x as [cur|e] eqn:Ec; cbn [bind] in H; [|discriminate] end.
  assert (Hcur : forall x, x ∈ lbl :: labels -> x ∈ cur.2).
  { destruct (Multi.with_context self).
    - destruct (Multi.apply_label _ (lbl :: labels)) as [l2|e] eqn:El2;
        cbn [bind] in Ec; [|discriminate].
      unfold Multi.apply_label in El2.
      match type of El2 with (if ?b then _ else _) = _ => destruct b end;
        [discriminate|].
      injection El2 as <-. injection Ec as <-. cbn [snd]. intros x Hx. by right.
    - injection Ec as <-. done. }
  destruct (Multi.expand_loop elem read self (S i) srcs cur.2) as [res'|e] eqn:Eloop;
    cbn [bind] in H; [|discriminate].
  destruct (IH _ _ _ Eloop) as (ls & Hls & Hnd & Hfresh).
  exists (lbl :: ls). split_and!.
  - cbn [mapM]. rewrite Hrs, Hls. reflexivity.
  - constructor; [|done]. intros Hin.
    rewrite Forall_forall in Hfresh. eapply Hfresh; [|apply Hcur; by left].
    first [exact Hin|by apply list_elem_of_In].
  - constructor; [done|]. eapply Forall_impl; [exact Hfresh|].
    intros x Hx Hx'. apply Hx, Hcur. by right.
Qed.

Lemma expand_loop_routing (self : Multi.t) (srcs : list string) :
  forall i labels cfgs pcols,
  Forall shaped srcs ->
  Multi.expand_loop elem read self i srcs labels = Ok (cfgs, pcols) ->
  Forall2 routed srcs cfgs.
Proof.
  induction srcs as [|src srcs IH]; intros i labels cfgs pcols Hall H.
  { injection H as <- <-. constructor. }
  apply Forall_cons in Hall as [Hsrc Hall].
  destruct (source_shape src Hsrc) as (kind & p & n & rest & Hs & Hkind & Hp & Hpo & _).
  assert (Hsplit : split_on "/" src = "projects" :: p :: kind :: split_on "/" (n ++ rest)%string).
  { rewrite Hs. apply shape_split; [done|]. destruct Hkind as [[-> _]|[-> _]]; auto. }
  cbn [Multi.expand_loop] in H. cbv zeta in H.
  destruct (Multi.index (Multi.id_label self) i) as [idl|e]; cbn [bind] in H; [|discriminate].
  destruct (Multi.index (Multi.timestamp_attribute self) i) as [tsa|e];
    cbn [bind] in H; [|discriminate].
  rewrite Hsplit, index_1, index_2 in H. cbn [bind] in H.
  destruct (Multi._kwargs self); cbn [bind] in H; [|discriminate].
  destruct (if String.eqb kind "topics"
            then Read.new (Some src) None idl (Multi.with_attributes self) tsa
            else Read.new None (Some src) idl (Multi.with_attributes self) tsa)
    as [rd|e] eqn:Er; cbn [bind] in H; [|discriminate].
  repeat match type of H with bind ?x _ = _ =>
    let E := fresh "E" in destruct x eqn:E; cbn [bind] in H; [|discriminate] end.
  injection H as <- <-. constructor.
  - unfold routed. destruct Hkind as [[-> Hm]|[-> [Hm' Hm]]].
    + rewrite String.eqb_refl in Er. apply Read_new_fields in Er as (_ & -> & -> & _).
      left. unfold matches. by rewrite Hm.
    + change (String.eqb "subscriptions" "topics") with false in Er.
      apply Read_new_fields in Er as (_ & -> & -> & _).
      right. unfold matches at 2. by rewrite Hm.
  - match goal with E : Multi.expand_loop _ _ _ _ srcs _ = Ok ?r |- _ =>
      destruct r; eapply IH; [exact Hall|exact E] end.
Qed.

(** If [MultipleReadFromPubSub(...).expand] raises, it raises one of three
    errors: [ReadFromPubSub] refusing the extra keyword arguments, a
    project segment of some source failing the project-id check, or
    [Pipeline.apply] refusing a step label that is already used; or, with
    an empty [source_list] and then always, [Flatten()] applied to an
    empty tuple without a pipeline. It never fails on [source_split[1]],
    [source_split[2]], [self.id_label[i]] or [self.timestamp_attribute[i]],
    and never with a format error. With keyword arguments and at least one
    source it always raises. *)
Theorem MultipleReadFromPubSub_expand_errors (srcs : list string) (wc wa : bool)
    (id ts : Multi.param) (kw : list (string * string)) (self : Multi.t) :
  Multi.new srcs wc id wa ts kw = Ok self ->
  (forall e, Multi.expand elem read self = Err e ->
     e = UnexpectedKeyword \/
     (exists src p, In src srcs /\ split_on "/" src !! 1 = Some p /\
        matches PROJECT_ID_REGEXP p = false /\ e = InvalidProjectId p) \/
     (exists l, e = DuplicateLabel l) \/
     (srcs = [] /\ e = NoPipeline)) /\
  (kw <> [] -> srcs <> [] -> Multi.expand elem read self = Err UnexpectedKeyword) /\
  (srcs = [] -> Multi.expand elem read self = Err NoPipeline).
Proof.
  intros Hnew.
  destruct (Multi_new_inv _ _ _ _ _ _ _ Hnew)
    as (Hsl & _ & _ & Hkw & Hid & Hts & Hchk & _ & _).
  apply check_sources_Forall in Hchk.
  split_and!.
  - intros e H. unfold Multi.expand in H. rewrite Hsl in H.
    destruct (Multi.expand_loop elem read self 0 srcs [])
      as [[cs ps]|e'] eqn:Eloop; cbn [bind fst snd] in H.
    + destruct ps as [|p ps]; [|discriminate]. injection H as <-.
      apply expand_loop_spec in Eloop as (Hlen & Hpc & _).
      right; right; right. split; [|done].
      destruct srcs as [|s srcs]; [done|]. destruct cs as [|c cs]; [discriminate Hlen|].
      discriminate Hpc.
    + injection H as <-.
      assert (Hor := expand_loop_errors self srcs 0 [] e' Hchk ltac:(lia) ltac:(lia) Eloop).
      destruct Hor as [H|[H|H]]; auto.
  - intros Hk Hs. unfold Multi.expand. rewrite Hsl.
    destruct srcs as [|src srcs]; [done|].
    apply Forall_cons in Hchk as [Hsrc _]. cbn [length] in Hid, Hts.
    rewrite expand_loop_kwargs; [reflexivity|by rewrite Hkw|done|lia|lia].
  - intros ->. unfold Multi.expand. rewrite Hsl. reflexivity.
Qed.

(** A successful [MultipleReadFromPubSub(...).expand] used pairwise
    distinct read step names ['PubSub <type>/project:<project>/Read <name>'],
    so the sources are pairwise distinct too: a source listed twice makes
    [expand] fail. *)
Theorem MultipleReadFromPubSub_expand_distinct (self : Multi.t)
    (cfgs : list Read.t) (out : list (Multi.out elem)) :
  Multi.expand elem read self = Ok (cfgs, out) ->
  NoDup (Multi.source_list self) /\
  exists names, mapM read_step_name (Multi.source_list self) = Ok names /\ NoDup names.
Proof.
  unfold Multi.expand. intros H.
  destruct (Multi.expand_loop elem read self 0 (Multi.source_list self) [])
    as [res|e] eqn:Eloop; cbn [bind] in H; [|discriminate].
  destruct (expand_loop_labels _ _ _ _ _ Eloop) as (ls & Hls & Hnd & _).
  split; [by eapply mapM_NoDup|]. by exists ls.
Qed.

(** [MultipleReadFromPubSub(...).expand] reads a source matching
    [TOPIC_REGEXP] as a topic and any other source as a subscription: the
    [i]-th [ReadFromPubSub] has exactly one of [full_topic] and
    [full_subscription] set, to the [i]-th source. *)
Theorem MultipleReadFromPubSub_expand_routing (srcs : list string) (wc wa : bool)
    (id ts : Multi.param) (kw : list (string * string)) (self : Multi.t)
    (cfgs : list Read.t) (out : list (Multi.out elem)) :
  Multi.new srcs wc id wa ts kw = Ok self ->
  Multi.expand elem read self = Ok (cfgs, out) ->
  Forall2 routed srcs cfgs.
Proof.
  intros Hnew H.
  destruct (Multi_new_inv _ _ _ _ _ _ _ Hnew) as (Hsl & _ & _ & _ & _ & _ & Hchk & _ & _).
  apply check_sources_Forall in Hchk.
  unfold Multi.expand in H. rewrite Hsl in H.
  destruct (Multi.expand_loop elem read self 0 srcs []) as [[cs ps]|e] eqn:Eloop;
    cbn [bind fst snd] in H; [|discriminate].
  destruct ps; [discriminate|]. injection H as <- _. by eapply expand_loop_routing.
Qed.

(** Two different positions of [source_list] whose sources get the same
    read step name (for instance ["projects/p/topics/a/x"] and
    ["projects/p/topics/b/x"]) make [MultipleReadFromPubSub.expand] fail. *)
Theorem MultipleReadFromPubSub_step_name_clash (self : Multi.t) (i j : nat)
    (s1 s2 name : string) :
  i <> j ->
  Multi.source_list self !! i = Some s1 -> Multi.source_list self !! j = Some s2 ->
  read_step_name s1 = Ok name -> read_step_name s2 = Ok name ->
  exists e, Multi.expand elem read self = Err e.
Proof.
  intros Hij Hi Hj H1 H2.
  destruct (Multi.expand elem read self) as [res|e] eqn:He; [exfalso|by exists e].
  unfold Multi.expand in He.
  destruct (Multi.expand_loop elem read self 0 (Multi.source_list self) [])
    as [r|e] eqn:Eloop; cbn [bind] in He; [|discriminate].
  destruct (expand_loop_labels _ _ _ _ _ Eloop) as (ls & Hls & Hnd & _).
  destruct (mapM_lookup _ _ _ _ _ Hls Hi) as (y1 & Hy1 & Hl1).
  destruct (mapM_lookup _ _ _ _ _ Hls Hj) as (y2 & Hy2 & Hl2).
  rewrite H1 in Hy1. rewrite H2 in Hy2. injection Hy1 as <-. injection Hy2 as <-.
  apply Hij. by eapply NoDup_lookup.
Qed.

Lemma not_elem_cons (x y : string) (l : list string) : x <> y -> x ∉ l -> x ∉ y :: l.
Proof.
  intros H1 H2 Hin%list_elem_of_In. destruct Hin as [->|Hin]; [done|].
  apply H2. by apply list_elem_of_In.
Qed.

Lemma shaped_index (src : string) :
  shaped src ->
  exists kind p n,
    Multi.index (split_on "/" src) 1 = Ok p /\ Multi.index (split_on "/" src) 2 = Ok kind /\
    String.eqb src "" = false /\
    ((kind = "topics" /\ match_ TOPIC_REGEXP src = Some [p; n]) \/
     (kind = "subscriptions" /\ match_ SUBSCRIPTION_REGEXP src = Some [p; n])).
Proof.
  intros Hs. destruct (source_shape src Hs) as (kind & p & n & rest & Heq & Hkind & Hp & Hpo & _).
  assert (Hsplit : split_on "/" src = "projects" :: p :: kind :: split_on "/" (n ++ rest)%string).
  { rewrite Heq. apply shape_split; [done|]. destruct Hkind as [[-> _]|[-> _]]; auto. }
  exists kind, p, n. rewrite Hsplit, index_1, index_2. split_and!; [done|done| |].
  - by rewrite Heq.
  - destruct Hkind as [[-> Hm]|[-> [_ Hm]]]; [by left|by right].
Qed.

Lemma expand_loop_succeeds (self : Multi.t) (srcs : list string) :
  forall i labels ls,
  Forall shaped srcs ->
  Forall (fun s => exists p, split_on "/" s !! 1 = Some p /\
                             matches PROJECT_ID_REGEXP p = true) srcs ->
  Multi._kwargs self = [] ->
  i + length srcs <= length (Multi.id_label self) ->
  i + length srcs <= length (Multi.timestamp_attribute self) ->
  mapM read_step_name srcs = Ok ls -> NoDup ls ->
  Forall (fun s => forall l, read_step_name s = Ok l -> l ∉ labels) srcs ->
  Forall (fun s => forall l, ctx_step_name s = Ok l -> l ∉ labels) srcs ->
  exists res, Multi.expand_loop elem read self i srcs labels = Ok res.
Proof.
  induction srcs as [|src srcs IH];
    intros i labels ls Hsh Hpr Hkw Hid Hts Hm Hnd Hr Hc; [by eexists|].
  apply Forall_cons in Hsh as [Hs Hsh]. apply Forall_cons in Hpr as [(p0 & Hp0 & Hpid) Hpr].
  apply Forall_cons in Hr as [Hr0 Hr]. apply Forall_cons in Hc as [Hc0 Hc].
  cbn [length] in Hid, Hts.
  destruct (lookup_lt_is_Some_2 (Multi.id_label self) i) as [idl Hidl]; [lia|].
  destruct (lookup_lt_is_Some_2 (Multi.timestamp_attribute self) i) as [tsa Htsa]; [lia|].
  cbn [mapM] in Hm.
  destruct (read_step_name src) as [lbl|e] eqn:Hrs; cbn [bind] in Hm; [|discriminate].
  destruct (mapM read_step_name srcs) as [ls'|e] eqn:Hms; cbn [bind] in Hm; [|discriminate].
  injection Hm as <-. apply NoDup_cons in Hnd as [Hlbl Hnd].
  destruct (shaped_index src Hs) as (kind & p & n & E1 & E2 & Hne & Hkind).
  assert (p0 = p) as ->.
  { unfold Multi.index in E1. rewrite Hp0 in E1. by injection E1. }
  destruct (ctx_step_name src) as [cl|e] eqn:Hcs.
  2: { destruct (step_names_shape src Hs) as (? & ? & ? & _ & _ & _ & _ & Hc'). congruence. }
  assert (Hl : (("PubSub " ++ kind ++ "/project:" ++ p) ++ "/Read " ++
                List.last (split_on "/" src) "")%string = lbl).
  { unfold read_step_name in Hrs. cbv zeta in Hrs. rewrite E1, E2 in Hrs.
    cbn [bind] in Hrs. by injection Hrs. }
  assert (Hcl : (("PubSub " ++ kind ++ "/project:" ++ p) ++ "/Add Context " ++
                 List.last (split_on "/" src) "")%string = cl).
  { unfold ctx_step_name in Hcs. cbv zeta in Hcs. rewrite E1, E2 in Hcs.
    cbn [bind] in Hcs. by injection Hcs. }
  assert (Hrd : exists rd,
    (if String.eqb kind "topics"
     then Read.new (Some src) None idl (Multi.with_attributes self) tsa
     else Read.new None (Some src) idl (Multi.with_attributes self) tsa) = Ok rd).
  { destruct Hkind as [[-> Hmt]|[-> Hmt]].
    - rewrite String.eqb_refl. unfold Read.new.
      rewrite (Source_new_topic src None idl _ tsa p n); [eexists; reflexivity|done|done|].
      unfold parse_topic. by rewrite Hmt, Hpid.
    - change (String.eqb "subscriptions" "topics") with false. unfold Read.new.
      rewrite (Source_new_subscription None src idl _ tsa p n); [eexists; reflexivity|done|done|].
      unfold parse_subscription. by rewrite Hmt, Hpid. }
  destruct Hrd as [rd Hrd].
  (* the remaining sources never reuse the labels of this one *)
  assert (Hfresh_r : forall s l, In s srcs -> read_step_name s = Ok l -> l <> lbl /\ l <> cl).
  { intros s l Hin Hsl. rewrite Forall_forall in Hsh.
    assert (Hss : shaped s) by (apply Hsh, list_elem_of_In, Hin).
    split.
    - intros ->. destruct (mapM_Ok_In _ _ _ _ Hms Hin) as (y & Hy & Hiny).
      rewrite Hsl in Hy. injection Hy as <-. apply Hlbl. by apply list_elem_of_In.
    - intros ->. exact (read_ctx_distinct s src cl Hss Hs Hsl Hcs). }
  assert (Hfresh_c : forall s l, In s srcs -> ctx_step_name s = Ok l -> l <> lbl /\ l <> cl).
  { intros s l Hin Hsl. rewrite Forall_forall in Hsh.
    assert (Hss : shaped s) by (apply Hsh, list_elem_of_In, Hin).
    split.
    - intros ->. exact (read_ctx_distinct src s lbl Hs Hss Hrs Hsl).
    - intros ->. pose proof (ctx_step_name_inj s src cl Hss Hs Hsl Hcs) as Hrr.
      rewrite Hrs in Hrr.
      destruct (mapM_Ok_In _ _ _ _ Hms Hin) as (y & Hy & Hiny).
      rewrite Hrr in Hy. injection Hy as <-. apply Hlbl. by apply list_elem_of_In. }
  cbn [Multi.expand_loop]. cbv zeta.
  unfold Multi.index at 1 2. rewrite Hidl, Htsa. cbn [bind].
  rewrite E1, E2. cbn [bind]. rewrite Hkw, Hrd. cbn [bind].
  rewrite Hl. unfold Multi.apply_label at 1.
  rewrite (existsb_eqb_false lbl labels (Hr0 lbl eq_refl)). cbn [bind].
  destruct (Multi.with_context self); cbn [bind].
  - rewrite Hcl. unfold Multi.apply_label at 1.
    rewrite existsb_eqb_false.
    2: { apply not_elem_cons; [|exact (Hc0 cl eq_refl)].
         intros ->. exact (read_ctx_distinct src src lbl Hs Hs Hrs Hcs). }
    cbn [bind snd].
    destruct (IH (S i) (cl :: lbl :: labels) ls') as [res Hres];
      [done|done|done|lia|lia|done|done| | |].
    + rewrite Forall_forall in Hr |- *. intros s Hin l Hsl.
      apply list_elem_of_In in Hin as Hin'.
      destruct (Hfresh_r s l Hin' Hsl) as [H1 H2].
      apply not_elem_cons; [done|]. apply not_elem_cons; [done|]. by apply (Hr s Hin).
    + rewrite Forall_forall in Hc |- *. intros s Hin l Hsl.
      apply list_elem_of_In in Hin as Hin'.
      destruct (Hfresh_c s l Hin' Hsl) as [H1 H2].
      apply not_elem_cons; [done|]. apply not_elem_cons; [done|]. by apply (Hc s Hin).
    + rewrite Hres. cbn [bind]. by eexists.
  - cbn [snd].
    destruct (IH (S i) (lbl :: labels) ls') as [res Hres];
      [done|done|done|lia|lia|done|done| | |].
    + rewrite Forall_forall in Hr |- *. intros s Hin l Hsl.
      apply list_elem_of_In in Hin as Hin'.
      destruct (Hfresh_r s l Hin' Hsl) as [H1 H2].
      apply not_elem_cons; [done|]. by apply (Hr s Hin).
    + rewrite Forall_forall in Hc |- *. intros s Hin l Hsl.
      apply list_elem_of_In in Hin as Hin'.
      destruct (Hfresh_c s l Hin' Hsl) as [H1 H2].
      apply not_elem_cons; [done|]. by apply (Hc s Hin).
    + rewrite Hres. cbn [bind]. by eexists.
Qed.

Lemma expand_loop_projects (self : Multi.t) (srcs : list string) :
  forall i labels res,
  Forall shaped srcs ->
  Multi.expand_loop elem read self i srcs labels = Ok res ->
  Forall (fun s => exists p, split_on "/" s !! 1 = Some p /\
                             matches PROJECT_ID_REGEXP p = true) srcs.
Proof.
  induction srcs as [|src srcs IH]; intros i labels res Hsh H; [constructor|].
  apply Forall_cons in Hsh as [Hs Hsh].
  destruct (shaped_index src Hs) as (kind & p & n & E1 & E2 & Hne & Hkind).
  cbn [Multi.expand_loop] in H. cbv zeta in H.
  destruct (Multi.index (Multi.id_label self) i) as [idl|e]; cbn [bind] in H; [|discriminate].
  destruct (Multi.index (Multi.timestamp_attribute self) i) as [tsa|e];
    cbn [bind] in H; [|discriminate].
  rewrite E1, E2 in H. cbn [bind] in H.
  destruct (Multi._kwargs self); cbn [bind] in H; [|discriminate].
  destruct (if String.eqb kind "topics"
            then Read.new (Some src) None idl (Multi.with_attributes self) tsa
            else Read.new None (Some src) idl (Multi.with_attributes self) tsa)
    as [rd|e] eqn:Er; cbn [bind] in H; [|discriminate].
  repeat match type of H with bind ?x _ = _ =>
    let E := fresh "E" in destruct x eqn:E; cbn [bind] in H; [|discriminate] end.
  constructor.
  - exists p. split; [unfold Multi.index in E1; by destruct (split_on "/" src !! 1) as [?|]; [injection E1 as ->|]|].
    destruct (matches PROJECT_ID_REGEXP p) eqn:Ep; [done|exfalso].
    destruct Hkind as [[-> Hm]|[-> Hm]].
    + rewrite String.eqb_refl in Er. revert Er. unfold Read.new, Source.new.
      cbn [truthy]. rewrite Hne. cbn [negb orb andb bind].
      unfold parse_topic. rewrite Hm, Ep. cbn [bind]. discriminate.
    + change (String.eqb "subscriptions" "topics") with false in Er. revert Er.
      unfold Read.new, Source.new. cbn [truthy]. rewrite Hne. cbn [negb orb andb bind].
      unfold parse_subscription. rewrite Hm, Ep. cbn [bind]. discriminate.
  - match goal with E : Multi.expand_loop _ _ _ _ srcs _ = Ok _ |- _ =>
      eapply IH; [exact Hsh|exact E] end.
Qed.

(** [MultipleReadFromPubSub(...).expand] succeeds exactly when there are
    no extra keyword arguments, there is at least one source (else
    [Flatten()] gets an empty tuple and no pipeline), the project segment of
    every source passes the project-id check, and the read step names of
    the sources are pairwise distinct. *)
Theorem MultipleReadFromPubSub_expand_ok (srcs : list string) (wc wa : bool)
    (id ts : Multi.param) (kw : list (string * string)) (self : Multi.t) :
  Multi.new srcs wc id wa ts kw = Ok self ->
  (exists res, Multi.expand elem read self = Ok res) <->
  kw = [] /\ srcs <> [] /\
  Forall (fun s => exists p, split_on "/" s !! 1 = Some p /\
                             matches PROJECT_ID_REGEXP p = true) srcs /\
  (exists names, mapM read_step_name srcs = Ok names /\ NoDup names).
Proof.
  intros Hnew.
  destruct (Multi_new_inv _ _ _ _ _ _ _ Hnew)
    as (Hsl & _ & _ & Hkw & Hid & Hts & Hchk & _ & _).
  apply check_sources_Forall in Hchk.
  unfold Multi.expand. rewrite Hsl. split.
  - intros [res H].
    destruct (Multi.expand_loop elem read self 0 srcs []) as [[cs ps]|e] eqn:Eloop;
      cbn [bind fst snd] in H; [|discriminate].
    destruct ps as [|pc ps]; [discriminate|].
    assert (Hne : srcs <> []) by (intros ->; discriminate Eloop).
    split_and!; [| done | |].
    + destruct kw as [|kv kvs]; [done|]. destruct srcs as [|src srcs]; [done|].
      exfalso. apply Forall_cons in Hchk as [Hsrc _]. cbn [length] in Hid, Hts.
      rewrite expand_loop_kwargs in Eloop; [discriminate|by rewrite Hkw|done|lia|lia].
    + by eapply expand_loop_projects.
    + destruct (expand_loop_labels _ _ _ _ _ Eloop) as (ls & Hls & Hnd & _). by exists ls.
  - intros (Hk & Hne & Hpr & names & Hnames & Hnd).
    destruct (expand_loop_succeeds self srcs 0 [] names) as [[cs ps] Hres];
      [done|done|by rewrite Hkw|lia|lia|done|done| | |].
    + apply Forall_forall. intros s _ l _ Hin. inversion Hin.
    + apply Forall_forall. intros s _ l _ Hin. inversion Hin.
    + rewrite Hres. cbn [bind fst snd].
      apply expand_loop_spec in Hres as (Hlen & Hpc & _).
      destruct srcs as [|src srcs]; [done|]. destruct cs as [|c cs]; [discriminate Hlen|].
      rewrite Hpc. cbn [zip_with]. by eexists.
Qed.

End MultiExtras.

(** ** The properties on concrete inputs *)

Lemma write_then_read_witness :
  exists bs,
    Write.expand (fun _ => EmptyString) true
      (map PyMsg [{| data := Some [x61]; attributes := Some (<["k":="v"]> ∅) |}])
    = Ok (map PyBytes bs) /\
    ReadFromPubSub.expand true bs
    = Ok (map PyMsg [{| data := Some [x61]; attributes := Some (<["k":="v"]> ∅) |}]).
Proof.
  apply (write_then_read (fun _ => EmptyString)).
  constructor; [split; eexists; reflexivity|constructor].
Defined.

Lemma write_rejects_missing_field_witness :
  Write.to_proto_str (fun _ => EmptyString)
    (PyMsg {| data := None; attributes := Some ∅ |}) = Err ProtoTypeError /\
  exists e, Write.expand (fun _ => EmptyString) true
              [PyMsg {| data := Some [x61]; attributes := Some ∅ |};
               PyMsg {| data := None; attributes := Some ∅ |}] = Err e.
Proof.
  apply (write_rejects_missing_field (fun _ => EmptyString) _
           {| data := None; attributes := Some ∅ |}).
  - simpl. right. left. reflexivity.
  - left. reflexivity.
Defined.

Lemma WriteToPubSub_payload_roundtrip_witness :
  exists w w',
    WriteToPubSub.new "projects/abcdef/topics/t" true None (Some "ts") = Ok w /\
    WriteToPubSub.from_runner_api_parameter (WriteToPubSub._pubsub_write_payload w) = Ok w' /\
    WriteToPubSub.id_label w' = Some EmptyString /\
    WriteToPubSub._pubsub_write_payload w' = WriteToPubSub._pubsub_write_payload w.
Proof.
  destruct (WriteToPubSub.new "projects/abcdef/topics/t" true None (Some "ts"))
    as [w|e] eqn:H; [|vm_compute in H; discriminate].
  destruct (WriteToPubSub_payload_roundtrip _ _ _ _ _ H) as (w' & Hw' & _ & Hid & _ & _ & Hp).
  exists w, w'. split_and!; [reflexivity|exact Hw'|exact Hid|exact Hp].
Defined.

Lemma MultipleReadFromPubSub_expand_errors_witness :
  (exists self,
    Multi.new ["projects/abcdef/topics/t"] false Multi.PNone false Multi.PNone
      [("max_read_time", "1")] = Ok self /\
    Multi.expand nat (fun _ => []) self = Err UnexpectedKeyword) /\
  (exists self,
    Multi.new [] false Multi.PNone false Multi.PNone [] = Ok self /\
    Multi.expand nat (fun _ => []) self = Err NoPipeline).
Proof.
  split.
  - destruct (Multi.new ["projects/abcdef/topics/t"] false Multi.PNone false Multi.PNone
                [("max_read_time", "1")]) as [self|e] eqn:H; [|vm_compute in H; discriminate].
    exists self. split; [reflexivity|].
    apply (proj1 (proj2 (MultipleReadFromPubSub_expand_errors nat (fun _ => [])
                           _ _ _ _ _ _ self H))); discriminate.
  - destruct (Multi.new [] false Multi.PNone false Multi.PNone []) as [self|e] eqn:H;
      [|vm_compute in H; discriminate].
    exists self. split; [reflexivity|].
    apply (proj2 (proj2 (MultipleReadFromPubSub_expand_errors nat (fun _ => [])
                           _ _ _ _ _ _ self H))); reflexivity.
Defined.

Lemma MultipleReadFromPubSub_expand_distinct_witness :
  exists self cfgs out,
    Multi.new ["projects/abcdef/topics/t"; "projects/abcdef/subscriptions/s"] true
      Multi.PNone false Multi.PNone [] = Ok self /\
    Multi.expand nat (fun _ => [0]) self = Ok (cfgs, out) /\
    NoDup (Multi.source_list self).
Proof.
  destruct (Multi.new ["projects/abcdef/topics/t"; "projects/abcdef/subscriptions/s"] true
              Multi.PNone false Multi.PNone []) as [self|e] eqn:H;
    [|vm_compute in H; discriminate].
  destruct (Multi.expand nat (fun _ => [0]) self) as [[cfgs out]|e] eqn:He.
  2: { vm_compute in H. injection H as <-. vm_compute in He. discriminate. }
  exists self, cfgs, out. split_and!; [reflexivity|exact He|].
  exact (proj1 (MultipleReadFromPubSub_expand_distinct nat (fun _ => [0]) self cfgs out He)).
Defined.

Lemma MultipleReadFromPubSub_expand_routing_witness :
  exists self cfgs out,
    Multi.new ["projects/abcdef/topics/t"; "projects/abcdef/subscriptions/s"] true
      Multi.PNone false Multi.PNone [] = Ok self /\
    Multi.expand nat (fun _ => [0]) self = Ok (cfgs, out) /\
    Forall2 routed ["projects/abcdef/topics/t"; "projects/abcdef/subscriptions/s"] cfgs.
Proof.
  destruct (Multi.new ["projects/abcdef/topics/t"; "projects/abcdef/subscriptions/s"] true
              Multi.PNone false Multi.PNone []) as [self|e] eqn:H;
    [|vm_compute in H; discriminate].
  destruct (Multi.expand nat (fun _ => [0]) self) as [[cfgs out]|e] eqn:He.
  2: { vm_compute in H. injection H as <-. vm_compute in He. discriminate. }
  exists self, cfgs, out. split_and!; [reflexivity|exact He|].
  exact (MultipleReadFromPubSub_expand_routing nat (fun _ => [0]) _ _ _ _ _ _ self cfgs out H He).
Defined.

Lemma MultipleReadFromPubSub_new_sources_witness :
  (exists self, Multi.new ["projects/BAD/topics/t"] false Multi.PNone false Multi.PNone []
                = Ok self) /\
  matches PROJECT_ID_REGEXP "BAD" = false.
Proof.
  split; [|vm_compute; reflexivity].
  apply (proj2 (MultipleReadFromPubSub_new_sources ["projects/BAD/topics/t"] false false
                  Multi.PNone Multi.PNone [])).
  split_and!; [eexists; reflexivity|eexists; reflexivity| |reflexivity|reflexivity].
  constructor; [|constructor].
  exists "topics"%string, "BAD"%string, "t"%string, ""%string.
  split_and!; [left; reflexivity|reflexivity|discriminate|reflexivity|discriminate
              |reflexivity|left; reflexivity].
Defined.

Lemma read_step_name_source_witness :
  read_step_name ("projects/" ++ "abcdef" ++ "/" ++ "topics" ++ "/" ++ "a/x")%string
  = Ok (("PubSub " ++ "topics" ++ "/project:" ++ "abcdef") ++ "/Read " ++
        List.last (split_on "/" "a/x") "")%string.
Proof.
  apply read_step_name_source; [reflexivity|left; reflexivity].
Defined.

Lemma MultipleReadFromPubSub_step_name_clash_witness :
  exists self e,
    Multi.new ["projects/abcdef/topics/a/x"; "projects/abcdef/topics/b/x"] false
      Multi.PNone false Multi.PNone [] = Ok self /\
    Multi.expand nat (fun _ => []) self = Err e.
Proof.
  destruct (Multi.new ["projects/abcdef/topics/a/x"; "projects/abcdef/topics/b/x"] false
              Multi.PNone false Multi.PNone []) as [self|e] eqn:H;
    [|vm_compute in H; discriminate].
  pose proof H as H'. vm_compute in H'. injection H' as <-.
  match type of H with _ = Ok ?s =>
    destruct (MultipleReadFromPubSub_step_name_clash nat (fun _ => []) s 0 1
                "projects/abcdef/topics/a/x" "projects/abcdef/topics/b/x"
                "PubSub topics/project:abcdef/Read x")
      as [e He]; [lia|reflexivity|reflexivity|vm_compute; reflexivity
                 |vm_compute; reflexivity|];
    exists s, e; split; [exact H|exact He]
  end.
Defined.

Lemma MultipleReadFromPubSub_expand_ok_witness :
  exists self,
    Multi.new ["projects/abcdef/topics/t"; "projects/abcdef/subscriptions/s"] true
      Multi.PNone false Multi.PNone [] = Ok self /\
    exists res, Multi.expand nat (fun _ => []) self = Ok res.
Proof.
  destruct (Multi.new ["projects/abcdef/topics/t"; "projects/abcdef/subscriptions/s"] true
              Multi.PNone false Multi.PNone []) as [self|e] eqn:H;
    [|vm_compute in H; discriminate].
  exists self. split; [reflexivity|].
  apply (proj2 (MultipleReadFromPubSub_expand_ok nat (fun _ => []) _ _ _ _ _ _ self H)).
  split_and!.
  - reflexivity.
  - discriminate.
  - constructor; [|constructor; [|constructor]];
      exists "abcdef"%string; split; vm_compute; reflexivity.
  - exists ["PubSub topics/project:abcdef/Read t"; "PubSub subscriptions/project:abcdef/Read s"]%string.
    split; [vm_compute; reflexivity|].
    apply (bool_decide_unpack _). vm_compute. reflexivity.
Defined.
